(** * Job-search backend: token authentication and real-time chat

  A shallow embedding of the authentication middleware
  ([Middlewares/authentication.middleware.js]), the socket registry
  ([Utils/socket.utils.js]), the chat service
  ([modules/User/Services/chat.service.js]), the sign-out service
  ([modules/Auth/Services/authentication.service.js]) and of the Mongoose
  models they query, followed by the properties proved about them.

  Conventions of the embedding.
  - A Mongoose collection is the list of its documents in natural order;
    [findOne] and the [findOneAnd...] family act on the first match.
  - Query filters are kept as data (paths are strings), and a document
    answers a path with [get_path]; a path the schema does not declare is
    simply missing from every stored document.  Filters reach MongoDB as
    written (Mongoose 7 and later, [strictQuery] off).
  - JavaScript [undefined] is [None]; on the wire it is BSON null.
  - JSON Web Tokens are symbolic: a token is either a string that is not a
    JWT or a payload together with the key that signed it.
  - Exceptions are explicit: an [Outcome] is a value or a thrown error. *)

From stdpp Require Import base gmap list strings pretty.
From Stdlib Require Import ZArith.

(** ** Values, fields and filters *)

Definition ObjectId := N.
Bind Scope N_scope with ObjectId.
Definition SocketId := string.

Inductive Val :=
| VNull
| VId (o : ObjectId)
| VBool (b : bool)
| VStr (s : string)
| VNum (z : Z).

Global Instance Val_eq_dec : EqDecision Val.
Proof. solve_decision. Defined.

(** What a stored document holds under a path. *)
Inductive Field :=
| FMissing
| FScalar (v : Val)
| FArray (l : list Val).

(** An optional id as a filter value: [undefined] is serialised as null. *)
Definition id_val (o : option ObjectId) : Val :=
match o with
| Some i => VId i
| None => VNull
end.

(** JavaScript truthiness of a filter value. *)
Definition truthy (v : Val) : bool :=
match v with
| VNull => false
| VId _ => true
| VBool b => b
| VStr s => negb (bool_decide (s = ""))
| VNum z => negb (bool_decide (z = 0%Z))
end.

(** [{ path: q }] against one stored field: equality on scalars, membership
  on arrays, and null also matches a missing field. *)
Definition field_matches (f : Field) (q : Val) : bool :=
match f with
| FMissing => bool_decide (q = VNull)
| FScalar v => bool_decide (v = q)
| FArray l => bool_decide (q ∈ l)
end.

(** A filter object [{ p1: v1, ..., $or: [ {..}, {..} ] }]. *)
Definition Clause := list (string * Val).

Record Query := {
q_fields : Clause;
q_or : option (list Clause)
}.

Fixpoint clause_get (p : string) (c : Clause) : option Val :=
match c with
| [] => None
| (p', v) :: c' => if bool_decide (p' = p) then Some v else clause_get p c'
end.

(** [conditions[p] = v]: a filter object holds one value per key, and an
assignment replaces the value the key had. *)
Definition clause_set (p : string) (v : Val) (c : Clause) : Clause :=
List.filter (λ pv, negb (bool_decide (pv.1 = p))) c ++ [(p, v)].

(** [this.where({...})] inside a query hook: the keys are merged into the
filter of the query, over what the caller gave for the same keys; [$or] is
left alone. *)
Definition where_ (extra : Clause) (q : Query) : Query :=
{| q_fields := foldl (λ c pv, clause_set pv.1 pv.2 c) (q_fields q) extra;
   q_or := q_or q |}.

Class Document (D : Type) := get_path : D → string → Field.

Section Collection.
Context {D : Type} `{!Document D}.

Definition clause_matches (d : D) (c : Clause) : bool :=
  forallb (λ pv, field_matches (get_path d pv.1) pv.2) c.

Definition matches (q : Query) (d : D) : bool :=
  clause_matches d (q_fields q) &&
  match q_or q with
  | None => true
  | Some cs => existsb (clause_matches d) cs
  end.

Definition findOne (q : Query) (coll : list D) : option D :=
  List.find (matches q) coll.

(** Replace the first match by [f] of it. *)
Fixpoint updateFirst (q : Query) (f : D → D) (coll : list D) : list D :=
  match coll with
  | [] => []
  | d :: rest =>
      if matches q d then f d :: rest else d :: updateFirst q f rest
  end.

(** Drop the first match. *)
Fixpoint deleteFirst (q : Query) (coll : list D) : list D :=
  match coll with
  | [] => []
  | d :: rest =>
      if matches q d then rest else d :: deleteFirst q rest
  end.
End Collection.

(** ** Exceptions *)

Inductive Exn :=
| JsonWebTokenError (msg : string)
| TokenExpiredError
| TypeError (msg : string).

Inductive Outcome (A : Type) :=
| Ret (a : A)
| Throw (e : Exn).
Global Arguments Ret {A} a.
Global Arguments Throw {A} e.

(** ** Models *)

(** [Constants/constants.js]: RoleEnum. *)
Inductive RoleEnum := USER | ADMIN.

Module User.
(** [userSchema]; [password] is [None] once a projection has removed it. *)
Record doc := {
  _id : ObjectId;
  firstName : string;
  lastName : string;
  email : string;
  password : option string;
  role : RoleEnum;
  company : option ObjectId;
  isConfirmed : bool;
  isDeleted : bool
}.

Global Instance document : Document doc := λ u p,
  if bool_decide (p = "_id") then FScalar (VId (_id u))
  else if bool_decide (p = "firstName") then FScalar (VStr (firstName u))
  else if bool_decide (p = "lastName") then FScalar (VStr (lastName u))
  else if bool_decide (p = "email") then FScalar (VStr (email u))
  else if bool_decide (p = "company") then
    match company u with Some c => FScalar (VId c) | None => FMissing end
  else if bool_decide (p = "isConfirmed") then FScalar (VBool (isConfirmed u))
  else if bool_decide (p = "isDeleted") then FScalar (VBool (isDeleted u))
  else FMissing.

(** [userSchema.pre(/^find/)]: every find is narrowed to live accounts. *)
Definition pre_find (q : Query) : Query :=
  where_ [("isDeleted", VBool false)] q.

(** The projection ["-password -__v"]. *)
Definition select_no_password (u : doc) : doc :=
  {| _id := _id u; firstName := firstName u; lastName := lastName u;
     email := email u; password := None; role := role u;
     company := company u; isConfirmed := isConfirmed u;
     isDeleted := isDeleted u |}.

(** [User.findById(id, "-password -__v")]. *)
Definition findById (id : ObjectId) (coll : list doc) : option doc :=
  select_no_password <$>
    findOne (pre_find {| q_fields := [("_id", VId id)]; q_or := None |}) coll.
End User.

Module Company.
(** [companySchema], the paths the chat service can reach. *)
Record doc := {
  _id : ObjectId;
  companyName : string;
  companyEmail : string;
  employee : list ObjectId;
  createdBy : ObjectId;
  HRs : list ObjectId;
  isDeleted : bool;
  approvedByAdmin : bool
}.

Global Instance document : Document doc := λ c p,
  if bool_decide (p = "_id") then FScalar (VId (_id c))
  else if bool_decide (p = "companyName") then FScalar (VStr (companyName c))
  else if bool_decide (p = "companyEmail") then FScalar (VStr (companyEmail c))
  else if bool_decide (p = "employee") then FArray (VId <$> employee c)
  else if bool_decide (p = "createdBy") then FScalar (VId (createdBy c))
  else if bool_decide (p = "HRs") then FArray (VId <$> HRs c)
  else if bool_decide (p = "isDeleted") then FScalar (VBool (isDeleted c))
  else if bool_decide (p = "approvedByAdmin") then
    FScalar (VBool (approvedByAdmin c))
  else FMissing.

(** [companySchema.pre(/^find/)]: soft-deleted companies are hidden unless
    the filter carries a truthy [includeDeleted]. *)
Definition pre_find (q : Query) : Query :=
  match clause_get "includeDeleted" (q_fields q) with
  | Some v => if truthy v then q else where_ [("isDeleted", VBool false)] q
  | None => where_ [("isDeleted", VBool false)] q
  end.

Definition findOne (q : Query) (coll : list doc) : option doc :=
  findOne (pre_find q) coll.
End Company.

Module Chat.
(** One element of [messages]; Mongoose gives every subdocument its own
    [_id] and applies the [sentAt] default when it casts it. *)
Record message := {
  m_id : ObjectId;
  body : option string;
  m_senderId : option ObjectId;
  sentAt : Z
}.

Global Instance message_eq_dec : EqDecision message.
Proof. solve_decision. Defined.

(** [chatShema]; neither participant path is required. *)
Record doc := {
  _id : ObjectId;
  senderId : option ObjectId;
  receiverId : option ObjectId;
  messages : list message
}.

Global Instance document : Document doc := λ c p,
  if bool_decide (p = "_id") then FScalar (VId (_id c))
  else if bool_decide (p = "senderId") then
    match senderId c with Some i => FScalar (VId i) | None => FMissing end
  else if bool_decide (p = "receiverId") then
    match receiverId c with Some i => FScalar (VId i) | None => FMissing end
  else FMissing.

(** [$addToSet: { messages: m }]: append unless an equal element is there. *)
Definition addToSet (m : message) (c : doc) : doc :=
  {| _id := _id c; senderId := senderId c; receiverId := receiverId c;
     messages := if bool_decide (m ∈ messages c) then messages c
                 else messages c ++ [m] |}.
End Chat.

Module BlackListTokens.
(** Modelled from the spec: the model file [black-list-tokens.model.js] is
    not part of the sources; a Revoked Token Entry is {tokenId, expiry},
    written by sign-out as [tokenId] and [expierdAt]. *)
Record doc := {
  tokenId : string;
  expierdAt : Z
}.

Global Instance document : Document doc := λ b p,
  if bool_decide (p = "tokenId") then FScalar (VStr (tokenId b))
  else if bool_decide (p = "expierdAt") then FScalar (VNum (expierdAt b))
  else FMissing.
End BlackListTokens.

(** ** JSON Web Tokens, symbolically *)

(** The claims [signInService] puts in a token, and the registered claims
[jti] ([jwtid]) and [exp] (seconds) that [jwt.sign] adds. *)
Record JwtPayload := {
p_id : ObjectId;
p_name : string;
p_email : string;
jti : string;
exp : Z
}.

Inductive Token :=
| NotJwt (s : string)
| Jwt (payload : JwtPayload) (key : string).

(** A token is a JavaScript string: only the empty one is falsy. *)
Definition token_truthy (t : Token) : bool :=
match t with
| NotJwt s => negb (bool_decide (s = ""))
| Jwt _ _ => true
end.

(** [jwt.verify(token, secret)] at clock [now] (milliseconds): the signature
is checked against [secret], then the expiry against the clock. *)
Definition jwt_verify (now : Z) (token : option Token) (secret : string)
  : Outcome JwtPayload :=
match token with
| None => Throw (JsonWebTokenError "jwt must be provided")
| Some (NotJwt s) =>
    if bool_decide (s = "")
    then Throw (JsonWebTokenError "jwt must be provided")
    else Throw (JsonWebTokenError "jwt malformed")
| Some (Jwt p k) =>
    if bool_decide (k = secret)
    then if (exp p <=? now `div` 1000)%Z then Throw TokenExpiredError
         else Ret p
    else Throw (JsonWebTokenError "invalid signature")
end.

(** [process.env]. *)
Record Env := {
JWT_SECRET_LOGIN : string;
JWT_SECRET_REFRESH : string
}.

(** ** What the handlers exchange *)

(** [{ tokenId: decodedData.jti, expierdAt: decodedData.exp }]. *)
Record TokenInfo := {
ti_tokenId : string;
ti_expierdAt : Z
}.

(** [{ ...user._doc, token }]. *)
Record Identity := {
i_user : User.doc;
i_token : TokenInfo
}.

(** A populated reference: [_id] and the selected paths the document has. *)
Definition Projection := list (string * Field).

Definition project {D} `{!Document D} (paths : list string) (d : D)
  : Projection :=
("_id", get_path d "_id") ::
omap (λ p, match get_path d p with
           | FMissing => None
           | f => Some (p, f)
           end) paths.

Record PopulatedMessage := {
pm_id : ObjectId;
pm_body : option string;
pm_senderId : option Projection;
pm_sentAt : Z
}.

Record PopulatedChat := {
pc_id : ObjectId;
pc_senderId : option Projection;
pc_receiverId : option Projection;
pc_messages : list PopulatedMessage
}.

(** Response bodies. *)
Inductive Json :=
| JMessage (message : string)
| JError (message : string) (error : Exn)
| JChat (message : string) (chat : option PopulatedChat).

(** The Express response object: [status] then [json]. *)
Record Response := {
statusCode : nat;
sent : option Json
}.

Definition fresh_response : Response := {| statusCode := 200; sent := None |}.

(** [res.status(code).json(b)] on a response that has not been sent.  On one
that has, Express raises "headers already sent" instead of writing a second
answer; that error is outside this model, where a second answer takes the
place of the first. *)
Definition status_json (code : nat) (b : Json) (res : Response) : Response :=
{| statusCode := code; sent := Some b |}.

(** What ends up bound as the logged-in user. *)
Inductive LoggedIn :=
| IsIdentity (i : Identity)
| IsResponse (r : Response)
| IsMiddleware.

(** [loggedInUser._id]. *)
Definition logged_id (l : LoggedIn) : option ObjectId :=
match l with
| IsIdentity i => Some (User._id (i_user i))
| IsResponse _ => None
| IsMiddleware => None
end.

(** ** The world *)

Record DB := {
Users : list User.doc;
Companies : list Company.doc;
Chats : list Chat.doc;
BlackList : list BlackListTokens.doc
}.

(** A pending [setTimeout] callback of [deleteChatAfter24Hour] with what its
closure captured. *)
Record Timer := {
fires_at : Z;
t_socket : SocketId;
t_loggedInUser : LoggedIn;
t_receiverId : ObjectId
}.

Record World := {
db : DB;
socketConnection : gmap (option ObjectId) SocketId;
timers : list Timer;
now : Z;
next_oid : N;
env : Env
}.

Definition set_db (d : DB) (w : World) : World :=
{| db := d; socketConnection := socketConnection w; timers := timers w;
   now := now w; next_oid := next_oid w; env := env w |}.

Definition set_chats (cs : list Chat.doc) (d : DB) : DB :=
{| Users := Users d; Companies := Companies d; Chats := cs;
   BlackList := BlackList d |}.

Definition set_blacklist (bl : list BlackListTokens.doc) (d : DB) : DB :=
{| Users := Users d; Companies := Companies d; Chats := Chats d;
   BlackList := bl |}.

Definition set_socketConnection (m : gmap (option ObjectId) SocketId)
  (w : World) : World :=
{| db := db w; socketConnection := m; timers := timers w;
   now := now w; next_oid := next_oid w; env := env w |}.

Definition set_timers (ts : list Timer) (w : World) : World :=
{| db := db w; socketConnection := socketConnection w; timers := ts;
   now := now w; next_oid := next_oid w; env := env w |}.

Definition set_now (t : Z) (w : World) : World :=
{| db := db w; socketConnection := socketConnection w; timers := timers w;
   now := t; next_oid := next_oid w; env := env w |}.

(** [new ObjectId()]: the generator never repeats itself. *)
Definition bump_oid (k : N) (w : World) : World :=
{| db := db w; socketConnection := socketConnection w; timers := timers w;
   now := now w; next_oid := (next_oid w + k)%N; env := env w |}.

(** ** [authentication.middleware.js] *)

Definition tokenId_query (j : string) : Query :=
{| q_fields := [("tokenId", VStr j)]; q_or := None |}.

(** [res.status(403).json(...)] on the response object, or on [undefined]. *)
Definition reject_403 (res : option Response) (msg : string)
  : Outcome LoggedIn :=
match res with
| Some r => Ret (IsResponse (status_json 403 (JMessage msg) r))
| None =>
    Throw (TypeError "Cannot read properties of undefined (reading 'status')")
end.

Definition validateUserToken (w : World) (token : option Token)
  (res : option Response) : Outcome LoggedIn :=
match jwt_verify (now w) token (JWT_SECRET_LOGIN (env w)) with
| Throw e => Throw e
| Ret decodedData =>
    match findOne (tokenId_query (jti decodedData)) (BlackList (db w)) with
    | Some _ => reject_403 res "Token blackklisted, please login again"
    | None =>
        match User.findById (p_id decodedData) (Users (db w)) with
        | None => reject_403 res "Please Signup"
        | Some user =>
            Ret (IsIdentity
                   {| i_user := user;
                      i_token := {| ti_tokenId := jti decodedData;
                                    ti_expierdAt := exp decodedData |} |})
        end
    end
end.

(** What a call [authenticationMiddleware(socket)] evaluates to: the promise
of [validateUserToken(socket)] when the argument is truthy, the Express
middleware closure otherwise. *)
Inductive AuthCall :=
| Validation (o : Outcome LoggedIn)
| ExpressHandler.

Definition authenticationMiddleware (w : World) (socket : option Token)
  : AuthCall :=
match socket with
| Some t =>
    if token_truthy t then Validation (validateUserToken w (Some t) None)
    else ExpressHandler
| None => ExpressHandler
end.

(** [await] on that value: a closure is not a promise and awaits to itself. *)
Definition await (c : AuthCall) : Outcome LoggedIn :=
match c with
| Validation o => o
| ExpressHandler => Ret IsMiddleware
end.

Record Request := {
headers_token : option Token;
headers_refreshtoken : option Token;
params_receiverId : ObjectId;
loggedInUser : option LoggedIn
}.

Definition set_loggedInUser (v : LoggedIn) (req : Request) : Request :=
{| headers_token := headers_token req;
   headers_refreshtoken := headers_refreshtoken req;
   params_receiverId := params_receiverId req;
   loggedInUser := Some v |}.

(** One run of the closure [async (req, res, next) => ...]. *)
Record MiddlewareRun := {
mw_req : Request;
mw_res : Response;
next_called : bool
}.

Definition run_middleware (w : World) (req : Request) (res : Response)
  : MiddlewareRun :=
match validateUserToken w (headers_token req) (Some res) with
| Ret v =>
    {| mw_req := set_loggedInUser v req;
       mw_res := match v with IsResponse r => r | _ => res end;
       next_called := true |}
| Throw error =>
    {| mw_req := req;
       mw_res := status_json 500
                   (JError "Somthing wrong from authMiddleware" error) res;
       next_called := false |}
end.

(** ** [socket.utils.js] *)

Record Socket := {
socket_id : SocketId;
accesstoken : option Token
}.

Definition registerSocketId (w : World) (socket : Socket)
  : Outcome (World * string) :=
match await (authenticationMiddleware w (accesstoken socket)) with
| Throw e => Throw e
| Ret user =>
    Ret (set_socketConnection
           (<[logged_id user := socket_id socket]> (socketConnection w)) w,
         "socket connected successfully")
end.

(** The ["disconnect"] listener of [removeSocket]. *)
Definition removeSocket (w : World) (socket : Socket)
  : Outcome (World * string) :=
match await (authenticationMiddleware w (accesstoken socket)) with
| Throw e => Throw e
| Ret user =>
    Ret (set_socketConnection
           (delete (logged_id user) (socketConnection w)) w,
         "disConnected")
end.

(** ** [chat.service.js] *)

(** [{ $or: [ { senderId: me, receiverId }, { senderId: receiverId,
receiverId: me } ] }]. *)
Definition pair_query (me : option ObjectId) (receiverId : ObjectId) : Query :=
{| q_fields := [];
   q_or := Some [ [("senderId", id_val me); ("receiverId", VId receiverId)];
                  [("senderId", VId receiverId); ("receiverId", id_val me)] ] |}.

(** [{ $or: [ { cretaedBy: me }, { HRs: me } ] }], spelled as the service
spells it. *)
Definition start_chat_query (me : option ObjectId) : Query :=
{| q_fields := [];
   q_or := Some [ [("cretaedBy", id_val me)]; [("HRs", id_val me)] ] |}.

(** The object a client sends with ["sendMessage"] or ["deleteChat"].  The
handlers destructure [body] and [receiverId]; [senderId] stands for whatever
else the client chose to put there.  Fields carry the type their schema path
casts them to. *)
Record MessageData := {
body : string;
receiverId : ObjectId;
senderId : option ObjectId
}.

Inductive Payload :=
| ErrorPayload (message : string)
| SuccessPayload (body : string) (chat : Chat.doc)
| ReceivePayload (body : string)
| ChatDeletedPayload (message : string).

(** The calls [socket.emit(event, p)] and [socket.to(room).emit(event, p)],
as the listeners make them.  Who receives a broadcast is Socket.IO's
business: the sockets of the room other than the emitting one, and nobody
for the room named [undefined]. *)
Inductive Emission :=
| Emit (socket : SocketId) (event : string) (p : Payload)
| EmitTo (socket : SocketId) (room : option SocketId) (event : string)
    (p : Payload).

(** The effect of one listener run. *)
Record Handled := {
h_world : World;
h_emitted : list Emission;
h_thrown : option Exn
}.

(** The subdocument [{ body, senderId }] after Mongoose has cast it. *)
Definition new_message (oid : ObjectId) (w : World) (body : string)
  (me : option ObjectId) : Chat.message :=
{| Chat.m_id := oid; Chat.body := Some body; Chat.m_senderId := me;
   Chat.sentAt := now w |}.

Definition deliver (w : World) (socket : Socket) (data : MessageData)
  (chat : Chat.doc) : list Emission :=
[ Emit (socket_id socket) "successMessage" (SuccessPayload (body data) chat);
  EmitTo (socket_id socket) (socketConnection w !! Some (receiverId data))
    "receiveMessage" (ReceivePayload (body data)) ].

(** The ["sendMessage"] listener of [sendMessageService]. *)
Definition sendMessage (w : World) (socket : Socket) (data : MessageData)
  : Handled :=
match await (authenticationMiddleware w (accesstoken socket)) with
| Throw e => {| h_world := w; h_emitted := []; h_thrown := Some e |}
| Ret loggedInUser =>
    let me := logged_id loggedInUser in
    let q := pair_query me (receiverId data) in
    let update := Chat.addToSet (new_message (next_oid w) w (body data) me) in
    let w1 := bump_oid 1 w in
    match findOne q (Chats (db w)) with
    | Some chat =>
        {| h_world :=
             set_db (set_chats (updateFirst q update (Chats (db w))) (db w)) w1;
           h_emitted := deliver w socket data chat;
           h_thrown := None |}
    | None =>
        match Company.findOne (start_chat_query me) (Companies (db w)) with
        | None =>
            {| h_world := w1;
               h_emitted :=
                 [ Emit (socket_id socket) "error"
                     (ErrorPayload "Only Hr or Company owner start chat") ];
               h_thrown := None |}
        | Some _ =>
            let chat :=
              {| Chat._id := next_oid w1;
                 Chat.senderId := me;
                 Chat.receiverId := Some (receiverId data);
                 Chat.messages :=
                   [ new_message (next_oid w1 + 1)%N w (body data) me ] |} in
            {| h_world :=
                 set_db (set_chats (Chats (db w) ++ [chat]) (db w))
                   (bump_oid 2 w1);
               h_emitted := deliver w socket data chat;
               h_thrown := None |}
        end
    end
end.

Definition day_ms : Z := (24 * 60 * 60 * 1000)%Z.

(** The ["deleteChat"] listener of [deleteChatAfter24Hour]: it only arms the
timer. *)
Definition deleteChat (w : World) (socket : Socket) (data : MessageData)
  : Handled :=
match await (authenticationMiddleware w (accesstoken socket)) with
| Throw e => {| h_world := w; h_emitted := []; h_thrown := Some e |}
| Ret loggedInUser =>
    {| h_world :=
         set_timers
           (timers w ++ [ {| fires_at := (now w + day_ms)%Z;
                             t_socket := socket_id socket;
                             t_loggedInUser := loggedInUser;
                             t_receiverId := receiverId data |} ]) w;
       h_emitted := [];
       h_thrown := None |}
end.

Definition chatDeleted : Payload :=
ChatDeletedPayload "Chat history deleted after 24 hours".

(** The callback handed to [setTimeout]. *)
Definition fire (t : Timer) (w : World) : Handled :=
let me := logged_id (t_loggedInUser t) in
let w' :=
  set_db (set_chats (deleteFirst (pair_query me (t_receiverId t))
                       (Chats (db w))) (db w)) w in
let receiverSocketId := socketConnection w !! Some (t_receiverId t) in
match me with
| None =>
    {| h_world := w'; h_emitted := [];
       h_thrown :=
         Some (TypeError
                 "Cannot read properties of undefined (reading 'toString')") |}
| Some i =>
    let senderSocketdId := socketConnection w !! Some i in
    {| h_world := w';
       h_emitted :=
         [ EmitTo (t_socket t) receiverSocketId "chatDeleted" chatDeleted;
           EmitTo (t_socket t) senderSocketdId "chatDeleted" chatDeleted ];
       h_thrown := None |}
end.

(** The event loop's timer phase: callbacks whose time has come run in the
order they were armed (all share one duration). *)
Fixpoint run_timers (ts : list Timer) (w : World) : World * list Emission :=
match ts with
| [] => (w, [])
| t :: rest =>
    let h := fire t w in
    let '(w', out) := run_timers rest (h_world h) in
    (w', h_emitted h ++ out)
end.

Definition due (t : Z) (tm : Timer) : bool := (fires_at tm <=? t)%Z.

(** Let the clock reach [t] with no other event in between. *)
Definition advance (t : Z) (w : World) : World * list Emission :=
run_timers (List.filter (due t) (timers w))
  (set_now (Z.max (now w) t)
     (set_timers (List.filter (λ tm, negb (due t tm)) (timers w)) w)).

Definition user_query (i : ObjectId) : Query :=
{| q_fields := [("_id", VId i)]; q_or := None |}.

(** [populate({ path, select: "username profilePicture" })] of one reference;
the lookup is a find on users, so the find hook applies. *)
Definition populate_user (users : list User.doc) (ref : option ObjectId)
  : option Projection :=
match ref with
| None => None
| Some i =>
    project ["username"; "profilePicture"] <$>
      findOne (User.pre_find (user_query i)) users
end.

Definition populate_message (users : list User.doc) (m : Chat.message)
  : PopulatedMessage :=
{| pm_id := Chat.m_id m; pm_body := Chat.body m;
   pm_senderId := populate_user users (Chat.m_senderId m);
   pm_sentAt := Chat.sentAt m |}.

Definition populate_chat (users : list User.doc) (c : Chat.doc)
  : PopulatedChat :=
{| pc_id := Chat._id c;
   pc_senderId := populate_user users (Chat.senderId c);
   pc_receiverId := populate_user users (Chat.receiverId c);
   pc_messages := populate_message users <$> Chat.messages c |}.

Definition destructure_undefined : Exn :=
TypeError "Cannot destructure property '_id' of 'req.loggedInUser'".

Definition getChatServices (w : World) (req : Request) (res : Response)
  : Outcome Response :=
match loggedInUser req with
| None => Throw destructure_undefined
| Some l =>
    let chat :=
      populate_chat (Users (db w)) <$>
        findOne (pair_query (logged_id l) (params_receiverId req))
          (Chats (db w)) in
    Ret (status_json 201 (JChat "Chat history fetched successfully" chat) res)
end.

Definition deleteChatHistoryServicve (w : World) (req : Request)
  (res : Response) : Outcome (World * Response) :=
match loggedInUser req with
| None => Throw destructure_undefined
| Some l =>
    Ret (set_db
           (set_chats
              (deleteFirst (pair_query (logged_id l) (params_receiverId req))
                 (Chats (db w))) (db w)) w,
         status_json 201 (JMessage "Chat history cleared") res)
end.

(** ** [authentication.service.js]: sign-out *)

Definition signOutService (w : World) (req : Request) (res : Response)
  : Outcome (World * Response) :=
match jwt_verify (now w) (headers_token req) (JWT_SECRET_LOGIN (env w)) with
| Throw e => Throw e
| Ret decodedToken =>
    match jwt_verify (now w) (headers_refreshtoken req)
            (JWT_SECRET_REFRESH (env w)) with
    | Throw e => Throw e
    | Ret decodedRefreshToken =>
        Ret (set_db
               (set_blacklist
                  (BlackList (db w) ++
                   [ {| BlackListTokens.tokenId := jti decodedToken;
                        BlackListTokens.expierdAt := exp decodedToken |};
                     {| BlackListTokens.tokenId := jti decodedRefreshToken;
                        BlackListTokens.expierdAt := exp decodedRefreshToken |} ])
                  (db w)) w,
             status_json 201 (JMessage "Logged out Successfully") res)
    end
end.

(** ** Vocabulary of the properties *)

(** A request as a protected chat route receives it from the middleware. *)
Definition chat_request (l : LoggedIn) (receiverId : ObjectId) : Request :=
{| headers_token := None; headers_refreshtoken := None;
   params_receiverId := receiverId; loggedInUser := Some l |}.

(** What can happen to the process.  [OtherService] stands for the account
and company services: they rewrite users and companies and touch neither the
chats nor the revocation list.  A socket event stands for its listener
being run; whether the connection callback has put that listener on the
socket is the matter of [serve] below, which lets through only the events a
socket listens to. *)
Inductive Event :=
| Connection (socket : Socket)
| Disconnect (socket : Socket)
| SendMessage (socket : Socket) (data : MessageData)
| DeleteChat (socket : Socket) (data : MessageData)
| GetChatHistory (req : Request)
| DeleteChatHistory (req : Request)
| SignOut (req : Request)
| OtherService (users : list User.doc) (companies : list Company.doc)
| ClockReaches (t : Z).

Definition set_users_companies (us : list User.doc) (cs : list Company.doc)
  (d : DB) : DB :=
{| Users := us; Companies := cs; Chats := Chats d; BlackList := BlackList d |}.

Definition step (w : World) (e : Event) : World :=
match e with
| Connection socket =>
    match registerSocketId w socket with
    | Ret (w', _) => w'
    | Throw _ => w
    end
| Disconnect socket =>
    match removeSocket w socket with
    | Ret (w', _) => w'
    | Throw _ => w
    end
| SendMessage socket data => h_world (sendMessage w socket data)
| DeleteChat socket data => h_world (deleteChat w socket data)
| GetChatHistory req => w
| DeleteChatHistory req =>
    let run := run_middleware w req fresh_response in
    if next_called run then
      match deleteChatHistoryServicve w (mw_req run) (mw_res run) with
      | Ret (w', _) => w'
      | Throw _ => w
      end
    else w
| SignOut req =>
    match signOutService w req fresh_response with
    | Ret (w', _) => w'
    | Throw _ => w
    end
| OtherService us cs => set_db (set_users_companies us cs (db w)) w
| ClockReaches t => (advance t w).1
end.

Definition run (evs : list Event) (w : World) : World := foldl step w evs.

(** ** The connection callback of [establishIoConnection] *)

(** The names bound in the module [socket.utils.js]: its two imports and
what it declares itself. *)
Definition socket_utils_scope : list string :=
[ "authenticationMiddleware"; "sendMessageService"; "socketConnection";
  "registerSocketId"; "removeSocket"; "establishIoConnection" ].

(** The event each of the three registering functions listens to with
[socket.on]. *)
Definition listener_of (f : string) : option string :=
if bool_decide (f = "sendMessageService") then Some "sendMessage"
else if bool_decide (f = "removeSocket") then Some "disconnect"
else if bool_decide (f = "deleteChatAfter24Hour") then Some "deleteChat"
else None.

Inductive ConnectionError :=
| AuthenticationFailed (e : Exn)
| ReferenceError (name : string).

(** [await f1(socket); await f2(socket); ...] inside a module with the
bindings [scope]: a name the module does not bind raises [ReferenceError:
name is not defined], and the calls after it are not made. *)
Fixpoint call_each (scope fs registered : list string)
  : list string * option ConnectionError :=
match fs with
| [] => (registered, None)
| f :: rest =>
    if bool_decide (f ∈ scope) then
      match listener_of f with
      | Some event => call_each scope rest (registered ++ [event])
      | None => call_each scope rest registered
      end
    else (registered, Some (ReferenceError f))
end.

(** The process together with the events each open socket listens to. *)
Record Server := {
sv_world : World;
sv_listeners : gmap SocketId (list string)
}.

Definition with_world (w : World) (s : Server) : Server :=
{| sv_world := w; sv_listeners := sv_listeners s |}.

(** The callback of [io.on("connection", ...)]: the socket is bound in the
registry first, then come the three registering calls. *)
Definition establishIoConnection (s : Server) (socket : Socket)
  : Server * option ConnectionError :=
match registerSocketId (sv_world s) socket with
| Throw e => (s, Some (AuthenticationFailed e))
| Ret (w', _) =>
    let '(events, error) :=
      call_each socket_utils_scope
        ["sendMessageService"; "removeSocket"; "deleteChatAfter24Hour"] [] in
    ({| sv_world := w';
        sv_listeners := <[socket_id socket := events]> (sv_listeners s) |},
     error)
end.

Definition listens (s : Server) (socket : Socket) (event : string) : bool :=
bool_decide (event ∈ default [] (sv_listeners s !! socket_id socket)).

(** One event at the server: a socket event reaches its listener only if the
socket has one for it, and is dropped otherwise. *)
Definition serve (s : Server) (e : Event) : Server :=
match e with
| Connection socket => (establishIoConnection s socket).1
| Disconnect socket =>
    {| sv_world :=
         if listens s socket "disconnect" then step (sv_world s) e
         else sv_world s;
       sv_listeners := delete (socket_id socket) (sv_listeners s) |}
| SendMessage socket _ =>
    if listens s socket "sendMessage" then with_world (step (sv_world s) e) s
    else s
| DeleteChat socket _ =>
    if listens s socket "deleteChat" then with_world (step (sv_world s) e) s
    else s
| _ => with_world (step (sv_world s) e) s
end.

Definition serve_all (evs : list Event) (s : Server) : Server :=
foldl serve s evs.

(** The server as [main.js] starts it: the registry is the empty [Map], no
timer is pending and no socket is open. *)
Definition boot (d : DB) (e : Env) (t : Z) (oid : N) : Server :=
{| sv_world := {| db := d; socketConnection := ∅; timers := [];
                  now := t; next_oid := oid; env := e |};
   sv_listeners := ∅ |}.

(** No socket listens to ["deleteChat"] and no timer is pending. *)
Definition never_armed (s : Server) : Prop :=
timers (sv_world s) = []
∧ ∀ sid events, sv_listeners s !! sid = Some events → "deleteChat" ∉ events.

(** The payload a token carries, whatever key signed it. *)
Definition token_jti (t : Token) : option string :=
match t with
| NotJwt _ => None
| Jwt p _ => Some (jti p)
end.

(** The reading of "an empty message history": a response whose [chat]
carries a message list, and that list is empty. *)
Definition returns_empty_history (o : Outcome Response) : Prop :=
∃ r msg pc, o = Ret r ∧ sent r = Some (JChat msg (Some pc))
            ∧ pc_messages pc = [].

(** The role the specification names: the id is in the HR list or in the
creator field of some company document. *)
Definition holds_company_role (companies : list Company.doc) (i : ObjectId)
  : Prop :=
∃ c, c ∈ companies ∧ (i ∈ Company.HRs c ∨ Company.createdBy c = i).

Global Instance holds_company_role_dec (companies : list Company.doc)
  (i : ObjectId) : Decision (holds_company_role companies i).
Proof.
  refine (cast_if (decide (Exists (λ c, i ∈ Company.HRs c
                                        ∨ Company.createdBy c = i) companies)));
    unfold holds_company_role; by rewrite <- Exists_exists.
Defined.

(** The conversation [sendMessage] creates for a first message. *)
Definition first_chat (w : World) (me receiverId : ObjectId) (body : string)
  : Chat.doc :=
{| Chat._id := (next_oid w + 1)%N;
   Chat.senderId := Some me;
   Chat.receiverId := Some receiverId;
   Chat.messages := [ new_message (next_oid w + 2)%N w body (Some me) ] |}.

Definition unauthorized : Payload :=
ErrorPayload "Only Hr or Company owner start chat".

(** Ids already used for messages lie below the generator's next id. *)
Definition oid_fresh (w : World) : Prop :=
∀ c m, c ∈ Chats (db w) → m ∈ Chat.messages c → (Chat.m_id m < next_oid w)%N.

Global Instance oid_fresh_dec (w : World) : Decision (oid_fresh w).
Proof.
  refine (cast_if (decide (Forall (λ c, Forall (λ m, (Chat.m_id m < next_oid w)%N)
                                          (Chat.messages c)) (Chats (db w)))));
    unfold oid_fresh; rewrite Forall_forall in *.
  - intros c m Hc. specialize (f c Hc). rewrite Forall_forall in f. apply f.
  - intros H. apply n. intros c Hc. apply Forall_forall. intros m. by apply H.
Defined.

Definition with_messages (c : Chat.doc) (ms : list Chat.message) : Chat.doc :=
{| Chat._id := Chat._id c; Chat.senderId := Chat.senderId c;
   Chat.receiverId := Chat.receiverId c; Chat.messages := ms |}.

(** The message list a fetch shows; empty when the fetch shows none. *)
Definition history (w : World) (l : LoggedIn) (receiverId : ObjectId)
  : list PopulatedMessage :=
match getChatServices w (chat_request l receiverId) fresh_response with
| Ret r =>
    match sent r with
    | Some (JChat _ (Some pc)) => pc_messages pc
    | _ => []
    end
| Throw _ => []
end.

(** A send that was acknowledged. *)
Definition acknowledged (h : Handled) (socket : Socket) : Prop :=
∃ body chat,
  Emit (socket_id socket) "successMessage" (SuccessPayload body chat)
  ∈ h_emitted h.

(** A run of sends between two connected participants: [true] is a message
from a to b, [false] one from b to a. *)
Definition send_turn (sa sb : Socket) (a b : ObjectId) (w : World)
  (t : bool * string) : World :=
if t.1
then h_world (sendMessage w sa {| body := t.2; receiverId := b;
                                  senderId := None |})
else h_world (sendMessage w sb {| body := t.2; receiverId := a;
                                  senderId := None |}).

Definition exchange (sa sb : Socket) (a b : ObjectId) (ts : list (bool * string))
  (w : World) : World :=
foldl (send_turn sa sb a b) w ts.

(** The message the k-th turn stores. *)
Definition turn_message (w : World) (a b : ObjectId) (k : nat)
  (t : bool * string) : Chat.message :=
new_message (next_oid w + N.of_nat k)%N w t.2 (Some (if t.1 then a else b)).

(** A pending deletion that is aimed at some other conversation. *)
Definition spares (c : Chat.doc) (t : Timer) : Prop :=
matches (pair_query (logged_id (t_loggedInUser t)) (t_receiverId t)) c = false.

Global Instance spares_dec (c : Chat.doc) (t : Timer) : Decision (spares c t).
Proof. unfold spares. apply _. Defined.

(** The data-model invariant: at most one conversation per unordered pair. *)
Definition one_chat_per_pair (w : World) : Prop :=
∀ me r, length (List.filter (matches (pair_query me r)) (Chats (db w))) ≤ 1.

(** ** [generate-tokens.utils.js] and token refresh *)

(** [publicClamis]: what the services put into a token. *)
Record PublicClaims := {
pc_user_id : ObjectId;
pc_name : string;
pc_email : string
}.

(** [registerClamis]: [expiresIn] as the span in seconds that [jwt.sign]
reads from it, and [jwtid]. *)
Record RegisterClaims := {
expiresIn : Z;
jwtid : string
}.

Definition default_secret (w : World) (secretKey : option string) : string :=
match secretKey with
| Some k => k
| None => JWT_SECRET_LOGIN (env w)
end.

(** [generateToken({ publicClamis, secretKey, registerClamis })]: [jwt.sign]
stamps the expiry from the clock, in seconds. *)
Definition generateToken (w : World) (publicClamis : PublicClaims)
  (secretKey : option string) (registerClamis : RegisterClaims) : Token :=
Jwt {| p_id := pc_user_id publicClamis;
       p_name := pc_name publicClamis;
       p_email := pc_email publicClamis;
       jti := jwtid registerClamis;
       exp := (now w `div` 1000 + expiresIn registerClamis)%Z |}
    (default_secret w secretKey).

(** [verifyToken({ token, secretKey })]. *)
Definition verifyToken (w : World) (token : option Token)
  (secretKey : option string) : Outcome JwtPayload :=
jwt_verify (now w) token (default_secret w secretKey).

(** What [refreshTokenServices] answers. *)
Inductive RefreshAnswer :=
| RefreshRefused (res : Response)
| RefreshIssued (status : nat) (message : string) (token : Token).

(** [refreshTokenServices]; [ttl] is what [ACCESS_TOKEN_EXPIRATION_TIME]
stands for and [nano] what [nanoid(5)] returns. *)
Definition refreshTokenServices (w : World) (req : Request) (res : Response)
  (ttl : Z) (nano : string) : Outcome RefreshAnswer :=
let refused :=
  Ret (RefreshRefused
         (status_json 401 (JMessage "No refresh token provided") res)) in
match headers_refreshtoken req with
| None => refused
| Some refreshtoken =>
    if token_truthy refreshtoken then
      match verifyToken w (Some refreshtoken)
              (Some (JWT_SECRET_REFRESH (env w))) with
      | Throw e => Throw e
      | Ret decodedData =>
          Ret (RefreshIssued 201 "Token Refreshed Success"
                 (generateToken w
                    {| pc_user_id := p_id decodedData;
                       pc_name := p_name decodedData;
                       pc_email := p_email decodedData |}
                    (Some (JWT_SECRET_LOGIN (env w)))
                    {| expiresIn := ttl; jwtid := nano |}))
      end
    else refused
end.

(** ** [error-handler.middleware.js] and the sign-out route *)

(** [error.message]. *)
Definition exn_message (e : Exn) : string :=
match e with
| JsonWebTokenError msg => msg
| TokenExpiredError => "jwt expired"
| TypeError msg => msg
end.

(** What a route leaves with the client: the response its service sent, or
the body of [globalErrorMiddleWareHandler]. *)
Inductive RouteAnswer :=
| Answered (res : Response)
| GlobalError (status : nat) (message : string) (error : string).

(** [globalErrorMiddleWareHandler(err, req, res, next)] for an error. *)
Definition globalErrorMiddleWareHandler (err_message : string) : RouteAnswer :=
GlobalError 500 "error in global middleware handler" err_message.

(** [errorHandlerMiddleware(api)]: a rejection of the service goes to [next]
as [new Error(error.message)], which Express hands to the global handler. *)
Definition errorHandlerMiddleware {A} (api : Outcome (A * Response))
  (otherwise : A) : A * RouteAnswer :=
match api with
| Ret (a, res) => (a, Answered res)
| Throw error => (otherwise, globalErrorMiddleWareHandler (exn_message error))
end.

(** [authController.post('/signout', errorHandlerMiddleware(signOutService))]:
the route has no authentication middleware in front. *)
Definition signout_route (w : World) (req : Request) : World * RouteAnswer :=
errorHandlerMiddleware (signOutService w req fresh_response) w.

(** ** [multer.middleware.js] *)

(** The value [fileFilter] hands to its callback as second argument: [true]
for a listed MIME type, otherwise the string built from [Date.now()],
[Math.round(Math.random() * 1E9)] and the file name. *)
Definition fileFilter (allwedExtintion : list string)
  (mimetype originalname : string) (date_now rounded_random : Z) : Val :=
if bool_decide (mimetype ∈ allwedExtintion) then VBool true
else VStr (pretty date_now +:+ "-" +:+ pretty rounded_random +:+ "_"
           +:+ originalname).

(** ** The jump-game script *)

(** The loop of [canJump]: [i] is the index of the head of [rest]. *)
Fixpoint canJump_loop (length_ : Z) (i max : Z) (rest : list Z) : bool :=
match rest with
| [] => false
| x :: rest' =>
    if (max <? i)%Z then false
    else
      let max' := Z.max max (i + x) in
      if (length_ - 1 <=? max')%Z then true
      else canJump_loop length_ (i + 1) max' rest'
end.

Definition canJump (nums : list Z) : bool :=
canJump_loop (Z.of_nat (length nums)) 0 0 nums.

(** Index [j] can be reached from index 0 by jumps forward of at most the
length written at the index jumped from. *)
Inductive reachable (nums : list Z) : nat → Prop :=
| reach_start : reachable nums 0
| reach_jump (i j : nat) (x : Z) :
    reachable nums i → nums !! i = Some x →
    i < j → (Z.of_nat j ≤ Z.of_nat i + x)%Z →
    reachable nums j.

(** ** More vocabulary *)

(** No clock event of the run reaches time [t]. *)
Definition clock_stays_before (t : Z) (evs : list Event) : Prop :=
Forall (λ e, match e with
             | ClockReaches t' => (t' < t)%Z
             | _ => True
             end) evs.

(** ** A small scenario

Five accounts and two companies.  Account 1 is an HR of the live company,
account 3 its creator, account 2 holds no role, account 4 is creator and HR
of a company that has been soft-deleted, account 5 is soft-deleted. *)

Definition ex_env : Env :=
{| JWT_SECRET_LOGIN := "login-secret"; JWT_SECRET_REFRESH := "refresh-secret" |}.

Definition ex_user (i : ObjectId) (deleted : bool) : User.doc :=
{| User._id := i; User.firstName := "Ada"; User.lastName := "Byron";
   User.email := "ada@example.org"; User.password := Some "$2b$hash";
   User.role := USER; User.company := None; User.isConfirmed := true;
   User.isDeleted := deleted |}.

Definition ex_company : Company.doc :=
{| Company._id := 10%N; Company.companyName := "Acme";
   Company.companyEmail := "hr@acme.example"; Company.employee := [];
   Company.createdBy := 3%N; Company.HRs := [1%N];
   Company.isDeleted := false; Company.approvedByAdmin := true |}.

Definition ex_closed_company : Company.doc :=
{| Company._id := 11%N; Company.companyName := "Bygone";
   Company.companyEmail := "hr@bygone.example"; Company.employee := [];
   Company.createdBy := 4%N; Company.HRs := [4%N];
   Company.isDeleted := true; Company.approvedByAdmin := true |}.

Definition ex_access (i : ObjectId) (j : string) : Token :=
Jwt {| p_id := i; p_name := "Ada Byron"; p_email := "ada@example.org";
       jti := j; exp := 2000 |} "login-secret".

Definition ex_refresh (i : ObjectId) (j : string) : Token :=
Jwt {| p_id := i; p_name := "Ada Byron"; p_email := "ada@example.org";
       jti := j; exp := 9000 |} "refresh-secret".

Definition ex_world : World :=
{| db := {| Users := [ ex_user 1 false; ex_user 2 false; ex_user 3 false;
                       ex_user 4 false; ex_user 5 true ];
            Companies := [ ex_company; ex_closed_company ];
            Chats := [];
            BlackList := [] |};
   socketConnection := {[ Some 2%N := "sock-2" ]};
   timers := [];
   now := 1000000;
   next_oid := 100;
   env := ex_env |}.

Definition ex_socket (sid : SocketId) (i : ObjectId) (j : string) : Socket :=
{| socket_id := sid; accesstoken := Some (ex_access i j) |}.

Definition ex_identity (i : ObjectId) (j : string) : Identity :=
{| i_user := User.select_no_password (ex_user i false);
   i_token := {| ti_tokenId := j; ti_expierdAt := 2000 |} |}.

Definition ex_hello (to : ObjectId) : MessageData :=
{| body := "Hello"; receiverId := to; senderId := None |}.

(** The scenario after account 1 has opened a conversation with account 2. *)
Definition ex_chat_world : World :=
h_world (sendMessage ex_world (ex_socket "sock-1" 1 "jti-1") (ex_hello 2)).

Definition ex_chat : Chat.doc := first_chat ex_world 1 2 "Hello".

Definition ex_signout_request : Request :=
{| headers_token := Some (ex_access 1 "jti-1");
   headers_refreshtoken := Some (ex_refresh 1 "jti-1r");
   params_receiverId := 2%N;
   loggedInUser := None |}.

(** The scenario after account 1 has signed out. *)
Definition ex_signed_out : World :=
match signOutService ex_world ex_signout_request fresh_response with
| Ret (w, _) => w
| Throw _ => ex_world
end.

(** * Properties *)

(** ** Collections *)

Section CollectionFacts.
Context {D : Type} `{!Document D}.

Lemma findOne_ext (q1 q2 : Query) (coll : list D) :
  (∀ d, matches q1 d = matches q2 d) → findOne q1 coll = findOne q2 coll.
Proof.
  intros E. unfold findOne.
  induction coll as [|d rest IH]; simpl; [done|].
  by rewrite E, IH.
Qed.

Lemma updateFirst_ext (q1 q2 : Query) (f : D → D) (coll : list D) :
  (∀ d, matches q1 d = matches q2 d) →
  updateFirst q1 f coll = updateFirst q2 f coll.
Proof.
  intros E. induction coll as [|d rest IH]; simpl; [done|].
  by rewrite E, IH.
Qed.

Lemma deleteFirst_ext (q1 q2 : Query) (coll : list D) :
  (∀ d, matches q1 d = matches q2 d) →
  deleteFirst q1 coll = deleteFirst q2 coll.
Proof.
  intros E. induction coll as [|d rest IH]; simpl; [done|].
  by rewrite E, IH.
Qed.

Lemma findOne_Some_matches (q : Query) (coll : list D) (d : D) :
  findOne q coll = Some d → matches q d = true ∧ d ∈ coll.
Proof.
  unfold findOne. intros H. apply find_some in H as [Hin Hm].
  split; [done|]. by apply list_elem_of_In.
Qed.

Lemma findOne_None_iff (q : Query) (coll : list D) :
  findOne q coll = None ↔ ∀ d, d ∈ coll → matches q d = false.
Proof.
  unfold findOne. induction coll as [|d rest IH]; simpl.
  - split; [|done]. intros _ d Hd. by apply elem_of_nil in Hd.
  - destruct (matches q d) eqn:E.
    + split; [done|]. intros H. specialize (H d (list_elem_of_here _ _)).
      congruence.
    + rewrite IH. split.
      * intros H d' [->|Hd']%elem_of_cons; auto.
      * intros H d' Hd'. apply H. by apply list_elem_of_further.
Qed.

(** An update that keeps a document inside the filter is seen by the next
lookup. *)
Lemma findOne_updateFirst (q : Query) (f : D → D) (coll : list D) :
  (∀ d, matches q (f d) = matches q d) →
  findOne q (updateFirst q f coll) = f <$> findOne q coll.
Proof.
  intros Hf. unfold findOne.
  induction coll as [|d rest IH]; simpl; [done|].
  destruct (matches q d) eqn:E; simpl.
  - by rewrite Hf, E.
  - by rewrite E.
Qed.

Lemma updateFirst_None (q : Query) (f : D → D) (coll : list D) :
  findOne q coll = None → updateFirst q f coll = coll.
Proof.
  unfold findOne. induction coll as [|d rest IH]; simpl; [done|].
  destruct (matches q d); [done|]. intros H. by rewrite IH.
Qed.

Lemma deleteFirst_None (q : Query) (coll : list D) :
  findOne q coll = None → deleteFirst q coll = coll.
Proof.
  unfold findOne. induction coll as [|d rest IH]; simpl; [done|].
  destruct (matches q d); [done|]. intros H. by rewrite IH.
Qed.

Lemma findOne_app_None (q : Query) (coll : list D) (d : D) :
  findOne q coll = None →
  findOne q (coll ++ [d]) = if matches q d then Some d else None.
Proof.
  unfold findOne. induction coll as [|d' rest IH]; simpl; [done|].
  destruct (matches q d'); [done|]. apply IH.
Qed.
End CollectionFacts.

(** ** The pair filter *)

Lemma chat_sender_matches (c : Chat.doc) (o : option ObjectId) :
  field_matches (get_path c "senderId") (id_val o)
  = bool_decide (Chat.senderId c = o).
Proof.
  unfold get_path, Chat.document. simpl.
  destruct (Chat.senderId c) as [i|], o as [j|]; simpl;
    repeat case_bool_decide; congruence.
Qed.

Lemma chat_receiver_matches (c : Chat.doc) (o : option ObjectId) :
  field_matches (get_path c "receiverId") (id_val o)
  = bool_decide (Chat.receiverId c = o).
Proof.
  unfold get_path, Chat.document. simpl.
  destruct (Chat.receiverId c) as [i|], o as [j|]; simpl;
    repeat case_bool_decide; congruence.
Qed.

Lemma pair_query_matches (me : option ObjectId) (r : ObjectId) (c : Chat.doc) :
  matches (pair_query me r) c
  = (bool_decide (Chat.senderId c = me) &&
     bool_decide (Chat.receiverId c = Some r))
    || (bool_decide (Chat.senderId c = Some r) &&
        bool_decide (Chat.receiverId c = me)).
Proof.
  unfold matches, pair_query, clause_matches. cbn [q_fields q_or forallb existsb fst snd].
  change (VId r) with (id_val (Some r)).
  rewrite !chat_sender_matches, !chat_receiver_matches.
  by rewrite !andb_true_r, orb_false_r.
Qed.

Lemma pair_query_sym (a b : ObjectId) (c : Chat.doc) :
  matches (pair_query (Some a) b) c = matches (pair_query (Some b) a) c.
Proof.
  rewrite !pair_query_matches.
  rewrite orb_comm. done.
Qed.

Lemma pair_query_addToSet (me : option ObjectId) (r : ObjectId)
    (m : Chat.message) (c : Chat.doc) :
  matches (pair_query me r) (Chat.addToSet m c) = matches (pair_query me r) c.
Proof. by rewrite !pair_query_matches. Qed.

(** After [$addToSet] on the first match, every stored message was there
before or is the one just added. *)
Lemma updateFirst_addToSet_messages (q : Query) (m : Chat.message)
    (coll : list Chat.doc) (c : Chat.doc) (m' : Chat.message) :
  c ∈ updateFirst q (Chat.addToSet m) coll → m' ∈ Chat.messages c →
  (∃ c0, c0 ∈ coll ∧ m' ∈ Chat.messages c0) ∨ m' = m.
Proof.
  induction coll as [|c1 rest IH]; simpl; intros Hc Hm.
  { by apply elem_of_nil in Hc. }
  destruct (matches q c1).
  - apply elem_of_cons in Hc as [->|Hc].
    + unfold Chat.addToSet in Hm; simpl in Hm. case_bool_decide.
      * left. exists c1. split; [apply list_elem_of_here|done].
      * apply elem_of_app in Hm as [Hm|Hm].
        -- left. exists c1. split; [apply list_elem_of_here|done].
        -- apply list_elem_of_singleton in Hm. by right.
    + left. exists c. split; [by apply list_elem_of_further|done].
  - apply elem_of_cons in Hc as [->|Hc].
    + left. exists c1. split; [apply list_elem_of_here|done].
    + destruct (IH Hc Hm) as [(c2 & Hc2 & Hm2)|Hs]; [|by right].
      left. exists c2. split; [by apply list_elem_of_further|done].
Qed.

(** C6. The pair filter does not see the order of the two ids: the lookup
that appends ([findOneAndUpdate]), the fetch service and both deletions
(the HTTP service and the timer callback) give the same result whether the
conversation is addressed as (a, b) or as (b, a). *)
Theorem pair_is_unordered (w : World) (ia ib : Identity) (res : Response)
    (update : Chat.doc → Chat.doc) (socket : SocketId) (at_ : Z) :
  let a := User._id (i_user ia) in
  let b := User._id (i_user ib) in
  let chats := Chats (db w) in
  findOne (pair_query (Some a) b) chats = findOne (pair_query (Some b) a) chats
  ∧ updateFirst (pair_query (Some a) b) update chats
    = updateFirst (pair_query (Some b) a) update chats
  ∧ getChatServices w (chat_request (IsIdentity ia) b) res
    = getChatServices w (chat_request (IsIdentity ib) a) res
  ∧ deleteChatHistoryServicve w (chat_request (IsIdentity ia) b) res
    = deleteChatHistoryServicve w (chat_request (IsIdentity ib) a) res
  ∧ h_world (fire {| fires_at := at_; t_socket := socket;
                     t_loggedInUser := IsIdentity ia; t_receiverId := b |} w)
    = h_world (fire {| fires_at := at_; t_socket := socket;
                       t_loggedInUser := IsIdentity ib; t_receiverId := a |} w).
Proof.
  intros a b chats.
  pose proof (pair_query_sym a b) as E.
  repeat split.
  - by apply findOne_ext.
  - by apply updateFirst_ext.
  - unfold getChatServices, chat_request; simpl.
    by rewrite (findOne_ext _ _ _ E).
  - unfold deleteChatHistoryServicve, chat_request; simpl.
    by rewrite (deleteFirst_ext _ _ _ E).
  - unfold fire; simpl. by rewrite (deleteFirst_ext _ _ _ E).
Qed.

(** ** The token validator *)

Lemma tokenId_query_matches (j : string) (b : BlackListTokens.doc) :
  matches (tokenId_query j) b = bool_decide (BlackListTokens.tokenId b = j).
Proof.
  unfold matches, tokenId_query, clause_matches, get_path,
    BlackListTokens.document; simpl.
  rewrite !andb_true_r. repeat case_bool_decide; congruence.
Qed.

Lemma blacklisted_found (j : string) (bl : list BlackListTokens.doc) :
  (∃ row, row ∈ bl ∧ BlackListTokens.tokenId row = j) →
  is_Some (findOne (tokenId_query j) bl).
Proof.
  intros (row & Hin & Hj).
  destruct (findOne (tokenId_query j) bl) eqn:E; [by eexists|].
  rewrite findOne_None_iff in E. specialize (E row Hin).
  rewrite tokenId_query_matches in E. by case_bool_decide.
Qed.

(** After [clause_set p v] a filter asks [v] of path [p], and of every other
path what it asked before. *)
Lemma clause_set_matches {D : Type} `{!Document D} (d : D) (p : string)
    (v : Val) (c : Clause) :
  clause_matches d (clause_set p v c)
  = field_matches (get_path d p) v
    && forallb (λ pv, bool_decide (pv.1 = p)
                      || field_matches (get_path d pv.1) pv.2) c.
Proof.
  unfold clause_matches, clause_set. rewrite forallb_app. simpl.
  rewrite andb_true_r, andb_comm. f_equal.
  induction c as [|[p' v'] c IH]; simpl; [done|].
  case_bool_decide; simpl; by rewrite IH.
Qed.

(** Every lookup that runs the user find hook answers with a live account. *)
Lemma user_find_hook (q : Query) (users : list User.doc) (u : User.doc) :
  findOne (User.pre_find q) users = Some u → User.isDeleted u = false.
Proof.
  intros [Hm _]%findOne_Some_matches.
  unfold matches, User.pre_find, where_ in Hm; simpl in Hm.
  apply andb_true_iff in Hm as [Hm _].
  rewrite clause_set_matches in Hm.
  apply andb_true_iff in Hm as [Hm _].
  unfold get_path, User.document in Hm; simpl in Hm.
  case_bool_decide; [congruence|done].
Qed.

Lemma user_find_hook_id (i : ObjectId) (users : list User.doc) (u : User.doc) :
  findOne (User.pre_find (user_query i)) users = Some u → User._id u = i.
Proof.
  intros [Hm _]%findOne_Some_matches.
  unfold matches, User.pre_find, where_, user_query in Hm; simpl in Hm.
  unfold clause_matches, get_path, User.document in Hm; simpl in Hm.
  repeat case_bool_decide; simpl in Hm; congruence.
Qed.

Lemma findById_deleted (i : ObjectId) (users : list User.doc) :
  (∀ u, u ∈ users → User._id u = i → User.isDeleted u = true) →
  User.findById i users = None.
Proof.
  intros Hdel. unfold User.findById.
  change {| q_fields := [("_id", VId i)]; q_or := None |} with (user_query i).
  destruct (findOne (User.pre_find (user_query i)) users) as [u|] eqn:E;
    [|done].
  pose proof (user_find_hook _ _ _ E) as Hlive.
  pose proof (user_find_hook_id _ _ _ E) as Hid.
  apply findOne_Some_matches in E as [_ Hin].
  rewrite (Hdel u Hin Hid) in Hlive. done.
Qed.

(** The validator hands out an identity only past all three checks. *)
Lemma validate_identity_inv (w : World) (token : option Token)
    (res : option Response) (i : Identity) :
  validateUserToken w token res = Ret (IsIdentity i) →
  ∃ d, jwt_verify (now w) token (JWT_SECRET_LOGIN (env w)) = Ret d
       ∧ findOne (tokenId_query (jti d)) (BlackList (db w)) = None
       ∧ User.findById (p_id d) (Users (db w)) = Some (i_user i)
       ∧ i_token i = {| ti_tokenId := jti d; ti_expierdAt := exp d |}.
Proof.
  unfold validateUserToken.
  destruct (jwt_verify _ _ _) as [d|e]; [|done].
  destruct (findOne (tokenId_query _) _) eqn:Hbl.
  { destruct res; simpl; done. }
  destruct (User.findById _ _) as [u|] eqn:Hu.
  2:{ destruct res; simpl; done. }
  intros [= <-]. exists d. done.
Qed.

(** Which identity comes out does not depend on the response argument. *)
Lemma validate_identity_transport (w : World) (token : option Token)
    (res res' : option Response) (i : Identity) :
  validateUserToken w token res = Ret (IsIdentity i) →
  validateUserToken w token res' = Ret (IsIdentity i).
Proof.
  intros (d & Hv & Hbl & Hu & Ht)%validate_identity_inv.
  unfold validateUserToken. rewrite Hv, Hbl, Hu.
  destruct i as [u t]; simpl in *. by subst.
Qed.

Lemma jwt_verify_truthy (now_ : Z) (t : Token) (secret : string)
    (d : JwtPayload) :
  jwt_verify now_ (Some t) secret = Ret d → token_truthy t = true.
Proof.
  destruct t as [s|p k]; simpl; [|done].
  by case_bool_decide.
Qed.

(** For a non-empty token string both call sites accept the same identity
with the same token metadata, and one rejects exactly when the other
does. *)
Lemma transports_agree_on_truthy_tokens (w : World) (t : Token)
    (res : Response) (i : Identity) :
  token_truthy t = true →
  await (authenticationMiddleware w (Some t)) = Ret (IsIdentity i)
  ↔ validateUserToken w (Some t) (Some res) = Ret (IsIdentity i).
Proof.
  intros Ht. unfold authenticationMiddleware. rewrite Ht. simpl.
  split; apply validate_identity_transport.
Qed.

(** C2, at the token [""].  Over HTTP the middleware rejects it: [jwt.verify]
throws, the answer is 500 and [next] is not called.  On a socket handshake
[authenticationMiddleware("")] takes the branch of the absent argument and
returns the Express closure without validating anything, so
[registerSocketId] binds the connection under the key [undefined] and
reports success, and a later ["sendMessage"] runs with no identity. *)
Theorem empty_token_transport_divergence (w : World) (req : Request)
    (res : Response) (sid : SocketId) :
  let http := run_middleware w
                {| headers_token := Some (NotJwt "");
                   headers_refreshtoken := headers_refreshtoken req;
                   params_receiverId := params_receiverId req;
                   loggedInUser := loggedInUser req |} res in
  let socket := {| socket_id := sid; accesstoken := Some (NotJwt "") |} in
  (next_called http = false ∧ statusCode (mw_res http) = 500)
  ∧ authenticationMiddleware w (accesstoken socket) = ExpressHandler
  ∧ registerSocketId w socket
    = Ret (set_socketConnection (<[None := sid]> (socketConnection w)) w,
           "socket connected successfully")
  ∧ ∀ data, h_thrown (sendMessage w socket data) = None.
Proof.
  simpl. unfold run_middleware, validateUserToken, registerSocketId,
    sendMessage. simpl. repeat split.
  intros data.
  destruct (findOne _ (Chats (db w))); [done|].
  destruct (Company.findOne _ _); done.
Qed.

(** C3. When the token verifies but is blacklisted, or its subject is not
found, the HTTP middleware answers 403 and still calls [next]; the request
goes on to the route handler with [req.loggedInUser] bound to the response
object itself, whose [_id] is undefined. *)
Theorem rejected_request_still_proceeds (w : World) (req : Request)
    (res : Response) (d : JwtPayload) :
  jwt_verify (now w) (headers_token req) (JWT_SECRET_LOGIN (env w)) = Ret d →
  (∃ row, row ∈ BlackList (db w) ∧ BlackListTokens.tokenId row = jti d)
  ∨ User.findById (p_id d) (Users (db w)) = None →
  let run := run_middleware w req res in
  next_called run = true
  ∧ statusCode (mw_res run) = 403
  ∧ (sent (mw_res run)
       = Some (JMessage "Token blackklisted, please login again")
     ∨ sent (mw_res run) = Some (JMessage "Please Signup"))
  ∧ loggedInUser (mw_req run) = Some (IsResponse (mw_res run))
  ∧ logged_id <$> loggedInUser (mw_req run) = Some None.
Proof.
  intros Hv Hrej. unfold run_middleware, validateUserToken. rewrite Hv.
  destruct (findOne (tokenId_query (jti d)) (BlackList (db w))) eqn:Hbl.
  { simpl. repeat split; auto. }
  destruct Hrej as [Hrow|Hu].
  { apply blacklisted_found in Hrow as [? Hrow]. congruence. }
  rewrite Hu. simpl. repeat split; auto.
Qed.

(** ** The system as a transition system *)

(** *** The revocation list only grows *)

Lemma run_timers_blacklist (ts : list Timer) (w : World) :
  BlackList (db (run_timers ts w).1) = BlackList (db w).
Proof.
  revert w. induction ts as [|t rest IH]; intros w; simpl; [done|].
  destruct (run_timers rest (h_world (fire t w))) as [w' out] eqn:E.
  simpl. specialize (IH (h_world (fire t w))). rewrite E in IH.
  simpl in IH. rewrite IH. unfold fire.
  by destruct (logged_id (t_loggedInUser t)).
Qed.

Lemma step_blacklist (w : World) (e : Event) (row : BlackListTokens.doc) :
  row ∈ BlackList (db w) → row ∈ BlackList (db (step w e)).
Proof.
  intros Hin. destruct e as [s|s|s d|s d|req|req|req|us cs|t]; simpl; try done.
  - unfold registerSocketId. by destruct (await _).
  - unfold removeSocket. by destruct (await _).
  - unfold sendMessage. destruct (await _); [|done].
    destruct (findOne _ (Chats _)); [done|].
    by destruct (Company.findOne _ _).
  - unfold deleteChat. by destruct (await _).
  - destruct (next_called _); [|done].
    unfold deleteChatHistoryServicve.
    by destruct (loggedInUser _).
  - unfold signOutService.
    destruct (jwt_verify _ (headers_token req) _); [|done].
    destruct (jwt_verify _ (headers_refreshtoken req) _); [|done].
    simpl. apply elem_of_app. by left.
  - unfold advance. by rewrite run_timers_blacklist.
Qed.

Lemma run_blacklist (evs : list Event) (w : World)
    (row : BlackListTokens.doc) :
  row ∈ BlackList (db w) → row ∈ BlackList (db (run evs w)).
Proof.
  revert w. induction evs as [|e evs IH]; intros w Hin; simpl; [done|].
  apply IH. by apply step_blacklist.
Qed.

Lemma signOut_inserts (w w' : World) (req : Request) (res res' : Response) :
  signOutService w req res = Ret (w', res') →
  ∃ d d',
    jwt_verify (now w) (headers_token req) (JWT_SECRET_LOGIN (env w)) = Ret d
    ∧ jwt_verify (now w) (headers_refreshtoken req)
        (JWT_SECRET_REFRESH (env w)) = Ret d'
    ∧ BlackList (db w')
      = BlackList (db w) ++
        [ {| BlackListTokens.tokenId := jti d;
             BlackListTokens.expierdAt := exp d |};
          {| BlackListTokens.tokenId := jti d';
             BlackListTokens.expierdAt := exp d' |} ].
Proof.
  unfold signOutService.
  destruct (jwt_verify _ (headers_token req) _) as [d|]; [|done].
  destruct (jwt_verify _ (headers_refreshtoken req) _) as [d'|]; [|done].
  intros [= <- <-]. by exists d, d'.
Qed.

Lemma jwt_verify_jti (now_ : Z) (t : Token) (secret : string)
    (d : JwtPayload) :
  jwt_verify now_ (Some t) secret = Ret d → token_jti t = Some (jti d).
Proof.
  destruct t as [s|p k]; simpl.
  - by case_bool_decide.
  - case_bool_decide; [|done]. destruct (_ <=? _)%Z; [done|].
    by intros [= ->].
Qed.

(** A token whose id is on the revocation list gets no identity, and when it
verifies the validator leaves through the revocation branch. *)
Lemma revoked_rejected (w : World) (t : Token) (j : string) :
  token_jti t = Some j →
  (∃ row, row ∈ BlackList (db w) ∧ BlackListTokens.tokenId row = j) →
  (∀ res i, validateUserToken w (Some t) res ≠ Ret (IsIdentity i))
  ∧ ∀ d, jwt_verify (now w) (Some t) (JWT_SECRET_LOGIN (env w)) = Ret d →
      ∀ res, validateUserToken w (Some t) res
             = reject_403 res "Token blackklisted, please login again".
Proof.
  intros Hj Hrow. split.
  - intros res i (d & Hv & Hbl & _)%validate_identity_inv.
    apply jwt_verify_jti in Hv. rewrite Hj in Hv. injection Hv as ->.
    apply blacklisted_found in Hrow as [? Hrow]. congruence.
  - intros d Hv res. unfold validateUserToken. rewrite Hv.
    apply jwt_verify_jti in Hv. rewrite Hj in Hv. injection Hv as ->.
    apply blacklisted_found in Hrow as [? ->]. done.
Qed.

(** Revocation as the validator sees it.  Sign-out appends two rows to the
revocation list, keyed by the ids of the access and of the refresh token.
From then on, after any further
events, a token carrying one of these ids is never given an identity by the
validator, over HTTP or on a socket; and while its signature and expiry are
still good the validator rejects it as blacklisted: the 403 answer
["Token blackklisted, please login again"] over HTTP, the exception of the
same branch on a socket. *)
Theorem revoked_token_never_accepted (w w1 : World) (req : Request)
    (res res1 : Response) (evs : list Event) (t : Token) :
  signOutService w req res = Ret (w1, res1) →
  headers_token req = Some t ∨ headers_refreshtoken req = Some t →
  let w2 := run evs w1 in
  (∃ access refresh,
     BlackList (db w1) = BlackList (db w) ++ [access; refresh]
     ∧ token_jti <$> headers_token req
       = Some (Some (BlackListTokens.tokenId access))
     ∧ token_jti <$> headers_refreshtoken req
       = Some (Some (BlackListTokens.tokenId refresh)))
  ∧ (∃ row, row ∈ BlackList (db w2)
            ∧ token_jti t = Some (BlackListTokens.tokenId row))
  ∧ (∀ r i, validateUserToken w2 (Some t) r ≠ Ret (IsIdentity i))
  ∧ (∀ i, await (authenticationMiddleware w2 (Some t)) ≠ Ret (IsIdentity i))
  ∧ ∀ d, jwt_verify (now w2) (Some t) (JWT_SECRET_LOGIN (env w2)) = Ret d →
      (∀ r, validateUserToken w2 (Some t) (Some r)
            = Ret (IsResponse
                     (status_json 403
                        (JMessage "Token blackklisted, please login again")
                        r)))
      ∧ ∃ msg, await (authenticationMiddleware w2 (Some t))
               = Throw (TypeError msg).
Proof.
  intros Hout Ht w2.
  apply signOut_inserts in Hout as (d & d' & Hd & Hd' & Hbl).
  split.
  { eexists _, _. split; [exact Hbl|].
    destruct (headers_token req) as [ta|]; [|done].
    destruct (headers_refreshtoken req) as [tr|]; [|done].
    simpl. by rewrite (jwt_verify_jti _ _ _ _ Hd), (jwt_verify_jti _ _ _ _ Hd'). }
  assert (∃ row, row ∈ BlackList (db w1)
                 ∧ token_jti t = Some (BlackListTokens.tokenId row))
    as (row & Hin & Hrow).
  { destruct Ht as [Ht|Ht].
    - rewrite Ht in Hd. apply jwt_verify_jti in Hd.
      exists {| BlackListTokens.tokenId := jti d;
                BlackListTokens.expierdAt := exp d |}.
      split; [|exact Hd]. rewrite Hbl.
      apply elem_of_app. right. apply list_elem_of_here.
    - rewrite Ht in Hd'. apply jwt_verify_jti in Hd'.
      exists {| BlackListTokens.tokenId := jti d';
                BlackListTokens.expierdAt := exp d' |}.
      split; [|exact Hd']. rewrite Hbl.
      apply elem_of_app. right. apply list_elem_of_further, list_elem_of_here. }
  pose proof (run_blacklist evs w1 row Hin) as Hin2. fold w2 in Hin2.
  destruct (revoked_rejected w2 t _ Hrow) as [Hnever Hbranch]; [by eauto|].
  split; [by eauto|]. split; [done|]. split.
  - intros i. unfold authenticationMiddleware.
    destruct (token_truthy t); simpl; [apply Hnever | done].
  - intros d2 Hv. split.
    + intros r. by rewrite (Hbranch d2 Hv).
    + unfold authenticationMiddleware.
      rewrite (jwt_verify_truthy _ _ _ _ Hv). simpl.
      rewrite (Hbranch d2 Hv). simpl. by eexists.
Qed.

(** C4. A revoked token that is accepted again.  Account 1 signs out, which
puts the ids of its access token and of its refresh token on the revocation
list.  The refresh route reads no revocation list: presented with the revoked
refresh token it answers 201 with a new access token, and the validator takes
the new token for account 1, over HTTP and on a socket. *)
Theorem revoked_refresh_token_is_accepted :
  let refresh := ex_refresh 1 "jti-1r" in
  let req := {| headers_token := None; headers_refreshtoken := Some refresh;
                params_receiverId := 2%N; loggedInUser := None |} in
  let identity :=
    {| i_user := User.select_no_password (ex_user 1 false);
       i_token := {| ti_tokenId := "k3x9q"; ti_expierdAt := 4600 |} |} in
  signOutService ex_world ex_signout_request fresh_response
  = Ret (ex_signed_out,
         status_json 201 (JMessage "Logged out Successfully") fresh_response)
  ∧ headers_refreshtoken ex_signout_request = Some refresh
  ∧ BlackList (db ex_signed_out)
    = [ {| BlackListTokens.tokenId := "jti-1";
           BlackListTokens.expierdAt := 2000 |};
        {| BlackListTokens.tokenId := "jti-1r";
           BlackListTokens.expierdAt := 9000 |} ]
  ∧ token_jti refresh = Some "jti-1r"
  ∧ ∃ access,
      refreshTokenServices ex_signed_out req fresh_response 3600 "k3x9q"
      = Ret (RefreshIssued 201 "Token Refreshed Success" access)
      ∧ validateUserToken ex_signed_out (Some access) (Some fresh_response)
        = Ret (IsIdentity identity)
      ∧ await (authenticationMiddleware ex_signed_out (Some access))
        = Ret (IsIdentity identity).
Proof.
  intros refresh req identity.
  split; [reflexivity|]. split; [reflexivity|]. split; [reflexivity|].
  split; [reflexivity|].
  eexists. split; [reflexivity|]. split; reflexivity.
Qed.

(** C10. A soft-deleted account cannot authenticate.  The user find hook
narrows every lookup to [isDeleted: false], so for a token that verifies and
is not blacklisted, whose subject is soft-deleted, the validator finds no
identity: 403 ["Please Signup"] over HTTP, an exception on a socket, and an
identity on neither. *)
Theorem soft_deleted_cannot_authenticate (w : World) (t : Token)
    (d : JwtPayload) :
  jwt_verify (now w) (Some t) (JWT_SECRET_LOGIN (env w)) = Ret d →
  findOne (tokenId_query (jti d)) (BlackList (db w)) = None →
  (∀ u, u ∈ Users (db w) → User._id u = p_id d → User.isDeleted u = true) →
  (∀ q u, findOne (User.pre_find q) (Users (db w)) = Some u →
          User.isDeleted u = false)
  ∧ User.findById (p_id d) (Users (db w)) = None
  ∧ (∀ r, validateUserToken w (Some t) (Some r)
          = Ret (IsResponse (status_json 403 (JMessage "Please Signup") r)))
  ∧ (∃ msg, await (authenticationMiddleware w (Some t))
            = Throw (TypeError msg))
  ∧ ∀ r i, validateUserToken w (Some t) r ≠ Ret (IsIdentity i).
Proof.
  intros Hv Hbl Hdel.
  pose proof (findById_deleted _ _ Hdel) as Hnone.
  split; [intros q u; apply user_find_hook|].
  split; [done|].
  assert (∀ r, validateUserToken w (Some t) r = reject_403 r "Please Signup")
    as Hrej.
  { intros r. unfold validateUserToken. by rewrite Hv, Hbl, Hnone. }
  split; [intros r; by rewrite Hrej|]. split.
  - unfold authenticationMiddleware.
    rewrite (jwt_verify_truthy _ _ _ _ Hv). simpl. rewrite Hrej. simpl.
    by eexists.
  - intros r i. rewrite Hrej. by destruct r.
Qed.

(** ** Fetching a history that does not exist *)

(** C9, as the service has it: with no conversation for the pair the fetch
is not an error; it answers 201 with [chat: null], not with a list. *)
Theorem fetch_without_conversation (w : World) (l : LoggedIn)
    (receiverId : ObjectId) (res : Response) :
  findOne (pair_query (logged_id l) receiverId) (Chats (db w)) = None →
  getChatServices w (chat_request l receiverId) res
  = Ret {| statusCode := 201;
           sent := Some (JChat "Chat history fetched successfully" None) |}.
Proof.
  intros Hnone. unfold getChatServices, chat_request; simpl.
  by rewrite Hnone.
Qed.

(** ** Starting a conversation *)

(** What the filter of the service selects, once the company find hook has
run: live companies that list the id among their HRs.  The clause on
[cretaedBy] names a path no company document has. *)
Lemma start_chat_query_matches (i : ObjectId) (c : Company.doc) :
  matches (Company.pre_find (start_chat_query (Some i))) c
  = negb (Company.isDeleted c) && bool_decide (i ∈ Company.HRs c).
Proof.
  unfold matches, Company.pre_find, start_chat_query, where_, clause_matches,
    get_path, Company.document; simpl.
  rewrite !andb_true_r, orb_false_r.
  f_equal.
  - destruct (Company.isDeleted c); by repeat case_bool_decide.
  - apply bool_decide_ext. rewrite list_elem_of_fmap. split.
    + intros (j & [= ->] & Hj). done.
    + intros Hi. by exists i.
Qed.

Lemma start_chat_found (i : ObjectId) (companies : list Company.doc) :
  is_Some (Company.findOne (start_chat_query (Some i)) companies)
  ↔ ∃ c, c ∈ companies ∧ Company.isDeleted c = false ∧ i ∈ Company.HRs c.
Proof.
  unfold Company.findOne. split.
  - intros [c Hc]. apply findOne_Some_matches in Hc as [Hm Hin].
    rewrite start_chat_query_matches in Hm.
    apply andb_true_iff in Hm as [Hlive Hhr].
    exists c. split; [done|]. split.
    + by destruct (Company.isDeleted c).
    + by case_bool_decide.
  - intros (c & Hin & Hlive & Hhr).
    destruct (findOne _ companies) eqn:E; [by eexists|].
    rewrite findOne_None_iff in E. specialize (E c Hin).
    rewrite start_chat_query_matches, Hlive in E. simpl in E.
    by case_bool_decide.
Qed.

(** C1, as the service has it.  With no conversation for the pair, a sender
who is an HR of a company that is not soft-deleted starts one: it holds the
single message and is acknowledged to the sender.  A sender who is neither HR
nor creator of any such company gets the fixed error event, and nothing is
written to the database. *)
Theorem first_message_authorization (w : World) (socket : Socket)
    (data : MessageData) (i : Identity) :
  await (authenticationMiddleware w (accesstoken socket)) = Ret (IsIdentity i) →
  let me := User._id (i_user i) in
  findOne (pair_query (Some me) (receiverId data)) (Chats (db w)) = None →
  let h := sendMessage w socket data in
  ((∃ c, c ∈ Companies (db w) ∧ Company.isDeleted c = false
         ∧ me ∈ Company.HRs c) →
   let chat := first_chat w me (receiverId data) (body data) in
   Chats (db (h_world h)) = Chats (db w) ++ [chat]
   ∧ h_emitted h = deliver w socket data chat
   ∧ h_thrown h = None)
  ∧ ((∀ c, c ∈ Companies (db w) → Company.isDeleted c = false →
           (me ∉ Company.HRs c) ∧ Company.createdBy c ≠ me) →
     h_emitted h = [ Emit (socket_id socket) "error" unauthorized ]
     ∧ db (h_world h) = db w
     ∧ h_thrown h = None).
Proof.
  intros Hauth me Hnone h. subst h. unfold sendMessage.
  rewrite Hauth. simpl. fold me. rewrite Hnone. split.
  - intros Hhr. apply start_chat_found in Hhr as [c Hc]. rewrite Hc.
    simpl. unfold first_chat, new_message; simpl.
    by rewrite <- N.add_assoc.
  - intros Hno.
    destruct (Company.findOne _ _) as [c|] eqn:E; [|done].
    assert (is_Some (Company.findOne (start_chat_query (Some me))
                       (Companies (db w)))) as Hs by (by eexists).
    apply start_chat_found in Hs as (c' & Hin & Hlive & Hhr).
    by destruct (Hno c' Hin Hlive).
Qed.

(** The service rejects exactly the senders that are in no HR list of a live
company; being the creator of one is not looked at. *)
Lemma first_message_rejected_iff (w : World) (socket : Socket)
    (data : MessageData) (i : Identity) :
  await (authenticationMiddleware w (accesstoken socket)) = Ret (IsIdentity i) →
  let me := User._id (i_user i) in
  findOne (pair_query (Some me) (receiverId data)) (Chats (db w)) = None →
  h_emitted (sendMessage w socket data)
    = [ Emit (socket_id socket) "error" unauthorized ]
  ↔ ¬ ∃ c, c ∈ Companies (db w) ∧ Company.isDeleted c = false
           ∧ me ∈ Company.HRs c.
Proof.
  intros Hauth me Hnone. rewrite <- start_chat_found.
  unfold sendMessage. rewrite Hauth. simpl. fold me. rewrite Hnone.
  destruct (Company.findOne _ _) as [c|]; simpl.
  - split; [done|]. intros H. destruct H. by eexists.
  - split; [|done]. intros _ [? ?]. done.
Qed.

(** ** The sender of a message *)

(** C8. The listener reads [body] and [receiverId] from the payload and
nothing else: two payloads that differ only in a [senderId] the client put
there have the same effect, on the world and on what is emitted.  The sender
the listener works with is the [_id] behind the handshake token: it is the
sender of every message the send adds. *)
Theorem sender_comes_from_the_token (w : World) (socket : Socket)
    (d1 d2 : MessageData) (l : LoggedIn) :
  body d1 = body d2 →
  receiverId d1 = receiverId d2 →
  await (authenticationMiddleware w (accesstoken socket)) = Ret l →
  sendMessage w socket d1 = sendMessage w socket d2
  ∧ deleteChat w socket d1 = deleteChat w socket d2
  ∧ ∀ c m, c ∈ Chats (db (h_world (sendMessage w socket d1))) →
           m ∈ Chat.messages c →
           (∃ c0, c0 ∈ Chats (db w) ∧ m ∈ Chat.messages c0)
           ∨ Chat.m_senderId m = logged_id l.
Proof.
  intros Hb Hr Hauth. split; [|split].
  - unfold sendMessage, deliver. by rewrite Hb, Hr.
  - unfold deleteChat. by rewrite Hr.
  - unfold sendMessage. rewrite Hauth.
    set (q := pair_query (logged_id l) (receiverId d1)).
    set (msg := new_message (next_oid w) w (body d1) (logged_id l)).
    destruct (findOne q (Chats (db w))) as [c0|] eqn:E.
    + simpl. intros c m Hc Hm.
      destruct (updateFirst_addToSet_messages _ _ _ _ _ Hc Hm) as [?| ->];
        [by left | by right].
    + destruct (Company.findOne _ _); simpl; intros c m Hc Hm.
      * apply elem_of_app in Hc as [Hc|Hc].
        -- left. by exists c.
        -- apply list_elem_of_singleton in Hc as ->. simpl in Hm.
           apply list_elem_of_singleton in Hm as ->. by right.
      * left. by exists c.
Qed.

(** ** Append order *)

Lemma addToSet_new_id (m : Chat.message) (c : Chat.doc) :
  (∀ m', m' ∈ Chat.messages c → Chat.m_id m' ≠ Chat.m_id m) →
  Chat.addToSet m c = with_messages c (Chat.messages c ++ [m]).
Proof.
  intros Hnew. unfold Chat.addToSet, with_messages.
  case_bool_decide as Hin; [|done].
  by destruct (Hnew m Hin).
Qed.

(** The validator reads the clock, the environment, the users and the
revocation list, and nothing else. *)
Lemma authentication_stable (w w' : World) (token : option Token) :
  now w' = now w → env w' = env w →
  Users (db w') = Users (db w) → BlackList (db w') = BlackList (db w) →
  authenticationMiddleware w' token = authenticationMiddleware w token.
Proof.
  intros Hn He Hu Hb. unfold authenticationMiddleware, validateUserToken.
  by rewrite Hn, He, Hu, Hb.
Qed.

Lemma sendMessage_frame (w : World) (socket : Socket) (data : MessageData) :
  let w' := h_world (sendMessage w socket data) in
  now w' = now w ∧ env w' = env w ∧ Users (db w') = Users (db w)
  ∧ BlackList (db w') = BlackList (db w)
  ∧ Companies (db w') = Companies (db w)
  ∧ socketConnection w' = socketConnection w ∧ timers w' = timers w.
Proof.
  unfold sendMessage. destruct (await _); [|done].
  destruct (findOne _ (Chats _)); [done|].
  by destruct (Company.findOne _ _).
Qed.

(** One send into an existing conversation: the message lands behind the
ones already there. *)
Lemma sendMessage_appends (w : World) (socket : Socket) (data : MessageData)
    (l : LoggedIn) (c : Chat.doc) :
  await (authenticationMiddleware w (accesstoken socket)) = Ret l →
  oid_fresh w →
  let q := pair_query (logged_id l) (receiverId data) in
  findOne q (Chats (db w)) = Some c →
  let w' := h_world (sendMessage w socket data) in
  findOne q (Chats (db w'))
  = Some (with_messages c
            (Chat.messages c ++
             [ new_message (next_oid w) w (body data) (logged_id l) ]))
  ∧ next_oid w' = (next_oid w + 1)%N
  ∧ oid_fresh w'.
Proof.
  intros Hauth Hfresh q Hc w'. subst w'. unfold sendMessage.
  rewrite Hauth. fold q. rewrite Hc. simpl.
  set (msg := new_message (next_oid w) w (body data) (logged_id l)).
  pose proof (findOne_Some_matches _ _ _ Hc) as [_ Hcin].
  split; [|split; [done|]].
  - rewrite findOne_updateFirst by (intros d; apply pair_query_addToSet).
    rewrite Hc. simpl. f_equal. apply addToSet_new_id.
    intros m' Hm'. specialize (Hfresh c m' Hcin Hm'). simpl. lia.
  - intros c' m Hc' Hm. simpl.
    destruct (updateFirst_addToSet_messages _ _ _ _ _ Hc' Hm)
      as [(c0 & Hc0 & Hm0)| ->].
    + specialize (Hfresh c0 m Hc0 Hm0). lia.
    + simpl. lia.
Qed.

(** The first send of a pair, when it is let through. *)
Lemma sendMessage_creates (w : World) (socket : Socket) (data : MessageData)
    (l : LoggedIn) (company : Company.doc) :
  await (authenticationMiddleware w (accesstoken socket)) = Ret l →
  let q := pair_query (logged_id l) (receiverId data) in
  findOne q (Chats (db w)) = None →
  Company.findOne (start_chat_query (logged_id l)) (Companies (db w))
    = Some company →
  let w' := h_world (sendMessage w socket data) in
  Chats (db w')
  = Chats (db w) ++
    [ {| Chat._id := (next_oid w + 1)%N;
         Chat.senderId := logged_id l;
         Chat.receiverId := Some (receiverId data);
         Chat.messages :=
           [ new_message (next_oid w + 2)%N w (body data) (logged_id l) ] |} ].
Proof.
  intros Hauth q Hnone Hco w'. subst w'. unfold sendMessage.
  rewrite Hauth. fold q. rewrite Hnone, Hco. simpl.
  unfold new_message; simpl. by rewrite <- N.add_assoc.
Qed.

Lemma history_found (w : World) (l : LoggedIn) (r : ObjectId) (c : Chat.doc) :
  findOne (pair_query (logged_id l) r) (Chats (db w)) = Some c →
  history w l r = populate_message (Users (db w)) <$> Chat.messages c.
Proof.
  intros Hc. unfold history, getChatServices, chat_request; simpl.
  by rewrite Hc.
Qed.

Lemma history_none (w : World) (l : LoggedIn) (r : ObjectId) :
  findOne (pair_query (logged_id l) r) (Chats (db w)) = None →
  history w l r = [].
Proof.
  intros Hc. unfold history, getChatServices, chat_request; simpl.
  by rewrite Hc.
Qed.

(** One acknowledged send extends the fetched history by exactly the message
sent, at its end. *)
Lemma send_then_fetch (w : World) (socket : Socket) (data : MessageData)
    (i : Identity) :
  await (authenticationMiddleware w (accesstoken socket)) = Ret (IsIdentity i) →
  oid_fresh w →
  let h := sendMessage w socket data in
  acknowledged h socket →
  ∃ oid,
    history (h_world h) (IsIdentity i) (receiverId data)
    = history w (IsIdentity i) (receiverId data) ++
      [ populate_message (Users (db w))
          (new_message oid w (body data) (Some (User._id (i_user i)))) ].
Proof.
  intros Hauth Hfresh h Hack. subst h.
  pose proof (sendMessage_frame w socket data) as (_ & _ & Hu & _).
  set (l := IsIdentity i) in *.
  set (q := pair_query (logged_id l) (receiverId data)).
  destruct (findOne q (Chats (db w))) as [c|] eqn:Hc.
  - destruct (sendMessage_appends w socket data l c Hauth Hfresh Hc)
      as (Hc' & _ & _).
    exists (next_oid w).
    rewrite (history_found _ _ _ _ Hc'), (history_found _ _ _ _ Hc), Hu.
    simpl. by rewrite fmap_app.
  - destruct (Company.findOne (start_chat_query (logged_id l))
                (Companies (db w))) as [co|] eqn:Hco.
    + pose proof (sendMessage_creates w socket data l co Hauth Hc Hco) as Hnew.
      exists (next_oid w + 2)%N.
      rewrite (history_none _ _ _ Hc). simpl.
      erewrite history_found.
      2:{ rewrite Hnew. fold q. rewrite (findOne_app_None _ _ _ Hc).
          subst q. rewrite pair_query_matches. simpl.
          rewrite !bool_decide_eq_true_2 by done. done. }
      simpl. by rewrite Hu.
    + exfalso. destruct Hack as (b & ch & Hin).
      unfold sendMessage in Hin. rewrite Hauth in Hin. fold q in Hin.
      rewrite Hc, Hco in Hin. simpl in Hin.
      apply list_elem_of_singleton in Hin. done.
Qed.

Lemma send_turn_frame (sa sb : Socket) (a b : ObjectId) (w : World)
    (t : bool * string) :
  let w' := send_turn sa sb a b w t in
  now w' = now w ∧ env w' = env w ∧ Users (db w') = Users (db w)
  ∧ BlackList (db w') = BlackList (db w).
Proof.
  unfold send_turn. destruct t.1.
  - destruct (sendMessage_frame w sa
                {| body := t.2; receiverId := b; senderId := None |})
      as (? & ? & ? & ? & _). done.
  - destruct (sendMessage_frame w sb
                {| body := t.2; receiverId := a; senderId := None |})
      as (? & ? & ? & ? & _). done.
Qed.

Lemma exchange_appends (sa sb : Socket) (ia ib : Identity)
    (ts : list (bool * string)) :
  let a := User._id (i_user ia) in
  let b := User._id (i_user ib) in
  ∀ (w : World) (c : Chat.doc),
    await (authenticationMiddleware w (accesstoken sa)) = Ret (IsIdentity ia) →
    await (authenticationMiddleware w (accesstoken sb)) = Ret (IsIdentity ib) →
    oid_fresh w →
    findOne (pair_query (Some a) b) (Chats (db w)) = Some c →
    let w' := exchange sa sb a b ts w in
    findOne (pair_query (Some a) b) (Chats (db w'))
    = Some (with_messages c
              (Chat.messages c ++ imap (turn_message w a b) ts))
    ∧ Users (db w') = Users (db w).
Proof.
  intros a b. induction ts as [|t rest IH]; intros w c Ha Hb Hfresh Hc; simpl.
  { rewrite app_nil_r. split; [|done]. rewrite Hc. by destruct c. }
  set (w1 := send_turn sa sb a b w t).
  pose proof (send_turn_frame sa sb a b w t) as (Hn & He & Hu & Hbl).
  fold w1 in Hn, He, Hu, Hbl.
  assert (findOne (pair_query (Some a) b) (Chats (db w1))
          = Some (with_messages c
                    (Chat.messages c ++ [turn_message w a b 0 t]))
          ∧ next_oid w1 = (next_oid w + 1)%N ∧ oid_fresh w1)
    as (Hc1 & Hoid & Hfresh1).
  { unfold w1, send_turn, turn_message. rewrite N.add_0_r.
    destruct t as [[|] text]; simpl.
    - apply (sendMessage_appends w sa
               {| body := text; receiverId := b; senderId := None |}
               (IsIdentity ia) c Ha Hfresh Hc).
    - rewrite (findOne_ext _ _ _ (pair_query_sym a b)) in Hc.
      destruct (sendMessage_appends w sb
                  {| body := text; receiverId := a; senderId := None |}
                  (IsIdentity ib) c Hb Hfresh Hc) as (H1 & H2 & H3).
      split; [|done].
      rewrite (findOne_ext _ _ _ (pair_query_sym a b)). exact H1. }
  edestruct (IH w1) as [Hfinal Hus];
    [ by rewrite (authentication_stable w w1)
    | by rewrite (authentication_stable w w1)
    | exact Hfresh1 | exact Hc1 | ].
  unfold exchange in *. split; [|congruence].
  rewrite Hfinal. simpl. f_equal. unfold with_messages; simpl.
  f_equal. rewrite <- app_assoc. simpl. do 2 f_equal.
  apply imap_ext. intros k t' _. unfold turn_message, new_message.
  rewrite Hoid, Hn. simpl. f_equal. lia.
Qed.

(** C5. Messages are fetched in the order they were appended.  After any
run of sends between the two participants of a conversation, either of them
fetches the earlier history followed by the messages of the run, in the order
sent; and after one acknowledged send, also the one that creates the
conversation, the fetched history is the earlier one with the message sent
as its last element. *)
Theorem history_is_append_order (w : World) (sa sb : Socket)
    (ia ib : Identity) :
  await (authenticationMiddleware w (accesstoken sa)) = Ret (IsIdentity ia) →
  await (authenticationMiddleware w (accesstoken sb)) = Ret (IsIdentity ib) →
  oid_fresh w →
  let a := User._id (i_user ia) in
  let b := User._id (i_user ib) in
  (∀ (ts : list (bool * string)) (c : Chat.doc),
     findOne (pair_query (Some a) b) (Chats (db w)) = Some c →
     let w' := exchange sa sb a b ts w in
     let sent_ := populate_message (Users (db w)) <$>
                    imap (turn_message w a b) ts in
     history w' (IsIdentity ia) b = history w (IsIdentity ia) b ++ sent_
     ∧ history w' (IsIdentity ib) a = history w (IsIdentity ib) a ++ sent_)
  ∧ (∀ data : MessageData,
       let h := sendMessage w sa data in
       acknowledged h sa →
       ∃ m, Chat.body m = Some (body data) ∧ Chat.m_senderId m = Some a
            ∧ history (h_world h) (IsIdentity ia) (receiverId data)
              = history w (IsIdentity ia) (receiverId data) ++
                [ populate_message (Users (db w)) m ]
            ∧ last (history (h_world h) (IsIdentity ia) (receiverId data))
              = Some (populate_message (Users (db w)) m)).
Proof.
  intros Ha Hb Hfresh a b. split.
  - intros ts c Hc w' sent_.
    destruct (exchange_appends sa sb ia ib ts w c Ha Hb Hfresh Hc)
      as [Hc' Hu]. fold a b w' in Hc', Hu.
    assert (∀ w0 c0, findOne (pair_query (Some a) b) (Chats (db w0)) = Some c0 →
              history w0 (IsIdentity ib) a
              = populate_message (Users (db w0)) <$> Chat.messages c0) as Hba.
    { intros w0 c0 H0. apply history_found. simpl.
      by rewrite <- (findOne_ext _ _ _ (pair_query_sym a b)). }
    rewrite (history_found w' (IsIdentity ia) b _ Hc').
    rewrite (history_found w (IsIdentity ia) b _ Hc).
    rewrite (Hba w' _ Hc'), (Hba w _ Hc), Hu. simpl.
    by rewrite fmap_app.
  - intros data h Hack.
    destruct (send_then_fetch w sa data ia Ha Hfresh Hack) as [oid Hh].
    exists (new_message oid w (body data) (Some a)).
    split; [done|]. split; [done|]. split; [exact Hh|].
    fold h in Hh. rewrite Hh. apply last_snoc.
Qed.

(** ** Deferred deletion *)

Section DeleteFacts.
Context {D : Type} `{!Document D}.

Lemma deleteFirst_subset (q : Query) (coll : list D) (d : D) :
  d ∈ deleteFirst q coll → d ∈ coll.
Proof.
  induction coll as [|d' rest IH]; simpl; [done|].
  destruct (matches q d').
  - apply list_elem_of_further.
  - intros [->|H]%elem_of_cons; [apply list_elem_of_here|].
    by apply list_elem_of_further, IH.
Qed.

(** Deleting under a filter that selects nothing of what [p] selects leaves
the selection of [p] as it was. *)
Lemma filter_deleteFirst_other (p : D → bool) (q : Query) (coll : list D) :
  (∀ d, d ∈ coll → matches q d = true → p d = false) →
  List.filter p (deleteFirst q coll) = List.filter p coll.
Proof.
  induction coll as [|d rest IH]; simpl; intros H; [done|].
  destruct (matches q d) eqn:E.
  - by rewrite (H d (list_elem_of_here _ _) E).
  - simpl. rewrite IH; [done|].
    intros d' Hd'. apply H. by apply list_elem_of_further.
Qed.

(** Deleting the only match leaves none. *)
Lemma filter_deleteFirst_only (q : Query) (coll : list D) (c : D) :
  List.filter (matches q) coll = [c] →
  List.filter (matches q) (deleteFirst q coll) = [].
Proof.
  induction coll as [|d rest IH]; simpl; [done|].
  destruct (matches q d) eqn:E.
  - by intros [= _ ->].
  - simpl. rewrite E. apply IH.
Qed.

Lemma filter_findOne (q : Query) (coll : list D) :
  findOne q coll = head (List.filter (matches q) coll).
Proof.
  unfold findOne. induction coll as [|d rest IH]; simpl; [done|].
  by destruct (matches q d).
Qed.
End DeleteFacts.

Lemma fire_frame (t : Timer) (w : World) :
  let w' := h_world (fire t w) in
  socketConnection w' = socketConnection w
  ∧ Chats (db w')
    = deleteFirst (pair_query (logged_id (t_loggedInUser t)) (t_receiverId t))
        (Chats (db w)).
Proof. unfold fire. by destruct (logged_id (t_loggedInUser t)). Qed.

Lemma run_timers_app (ts1 ts2 : list Timer) (w : World) :
  run_timers (ts1 ++ ts2) w
  = (let r1 := run_timers ts1 w in
     let r2 := run_timers ts2 r1.1 in
     (r2.1, r1.2 ++ r2.2)).
Proof.
  revert w. induction ts1 as [|t rest IH]; intros w; simpl.
  { by destruct (run_timers ts2 w). }
  rewrite IH.
  destruct (run_timers rest (h_world (fire t w))) as [w1 o1]; simpl.
  destruct (run_timers ts2 w1) as [w2 o2]; simpl.
  by rewrite app_assoc.
Qed.

Lemma run_timers_registry (ts : list Timer) (w : World) :
  socketConnection (run_timers ts w).1 = socketConnection w.
Proof.
  revert w. induction ts as [|t rest IH]; intros w; simpl; [done|].
  specialize (IH (h_world (fire t w))).
  destruct (run_timers rest (h_world (fire t w))) as [w1 o1]; simpl in *.
  rewrite IH. apply fire_frame.
Qed.

Lemma run_timers_spares (q : Query) (c : Chat.doc) (ts : list Timer)
    (w : World) :
  Forall (spares c) ts →
  List.filter (matches q) (Chats (db w)) = [c] →
  List.filter (matches q) (Chats (db (run_timers ts w).1)) = [c].
Proof.
  intros Hts. revert w. induction Hts as [|t rest Ht _ IH]; intros w Hc;
    simpl; [done|].
  specialize (IH (h_world (fire t w))).
  destruct (run_timers rest (h_world (fire t w))) as [w1 o1]; simpl in *.
  apply IH. destruct (fire_frame t w) as [_ ->].
  rewrite filter_deleteFirst_other; [done|].
  intros d Hd Hm. destruct (matches q d) eqn:E; [|done].
  assert (d ∈ List.filter (matches q) (Chats (db w))) as Hin.
  { apply list_elem_of_In, filter_In. split; [by apply list_elem_of_In|done]. }
  rewrite Hc in Hin. apply list_elem_of_singleton in Hin as ->.
  unfold spares in Ht. congruence.
Qed.

Lemma filter_due_spares (c : Chat.doc) (p : Timer → bool) (ts : list Timer) :
  Forall (spares c) ts → Forall (spares c) (List.filter p ts).
Proof.
  intros H. apply Forall_forall. intros t Ht.
  apply list_elem_of_In, filter_In in Ht as [Ht _].
  rewrite Forall_forall in H. by apply H, list_elem_of_In.
Qed.

(** The ["deleteChat"] listener taken by itself, as [deleteChatAfter24Hour]
would put it on a socket.  Run for an authenticated participant it arms one
timer, 24 hours ahead, and does nothing else.  While the clock stays short of
that time the conversation of the pair is still there; when the clock reaches
it the conversation is deleted and ["chatDeleted"] is emitted, last and in
this order, to the room the receiver is bound to and to the room the sender is
bound to at that moment (the room [undefined], which reaches nobody, when
there is no binding).  The conversation is the only one of the pair, and no
deletion armed earlier is aimed at it. *)
Theorem deferred_deletion_after_24_hours (w : World) (socket : Socket)
    (data : MessageData) (i : Identity) (c : Chat.doc) :
  await (authenticationMiddleware w (accesstoken socket)) = Ret (IsIdentity i) →
  let me := User._id (i_user i) in
  let q := pair_query (Some me) (receiverId data) in
  List.filter (matches q) (Chats (db w)) = [c] →
  Forall (spares c) (timers w) →
  let armed := deleteChat w socket data in
  let T := now w in
  (db (h_world armed) = db w ∧ h_emitted armed = [] ∧ h_thrown armed = None
   ∧ timers (h_world armed)
     = timers w ++ [ {| fires_at := (T + 86400000)%Z;
                        t_socket := socket_id socket;
                        t_loggedInUser := IsIdentity i;
                        t_receiverId := receiverId data |} ])
  ∧ ∀ w2 : World,
      Chats (db w2) = Chats (db w) → timers w2 = timers (h_world armed) →
      (∀ t, (t < T + 86400000)%Z →
            findOne q (Chats (db (advance t w2).1)) = Some c)
      ∧ findOne q (Chats (db (advance (T + 86400000) w2).1)) = None
      ∧ (c ∉ Chats (db (advance (T + 86400000) w2).1))
      ∧ ∃ earlier,
          (advance (T + 86400000) w2).2
          = earlier ++
            [ EmitTo (socket_id socket)
                (socketConnection w2 !! Some (receiverId data))
                "chatDeleted"
                (ChatDeletedPayload "Chat history deleted after 24 hours");
              EmitTo (socket_id socket) (socketConnection w2 !! Some me)
                "chatDeleted"
                (ChatDeletedPayload "Chat history deleted after 24 hours") ].
Proof.
  intros Hauth me q Hc Hspare armed T.
  assert (h_world armed
          = set_timers
              (timers w ++ [ {| fires_at := (T + day_ms)%Z;
                                t_socket := socket_id socket;
                                t_loggedInUser := IsIdentity i;
                                t_receiverId := receiverId data |} ]) w
          ∧ h_emitted armed = [] ∧ h_thrown armed = None)
    as (Hw & Hout & Hthrown).
  { unfold armed, deleteChat. by rewrite Hauth. }
  change 86400000%Z with day_ms.
  split; [by rewrite Hw|].
  intros w2 Hchats Htimers. rewrite Hw in Htimers. simpl in Htimers.
  set (tm := {| fires_at := (T + day_ms)%Z; t_socket := socket_id socket;
                t_loggedInUser := IsIdentity i;
                t_receiverId := receiverId data |}) in *.
  split; [|].
  - intros t Ht. unfold advance. rewrite Htimers, List.filter_app. simpl.
    unfold due at 2. simpl.
    replace (T + day_ms <=? t)%Z with false by (symmetry; apply Z.leb_gt; lia).
    rewrite app_nil_r, filter_findOne.
    rewrite (run_timers_spares q c); [done| |].
    + by apply filter_due_spares.
    + simpl. by rewrite Hchats.
  - assert (due (T + day_ms) tm = true) as Hdue by apply Z.leb_refl.
    assert (∃ r1 : World * list Emission,
              advance (T + day_ms) w2
              = (h_world (fire tm r1.1), r1.2 ++ h_emitted (fire tm r1.1))
              ∧ List.filter (matches q) (Chats (db r1.1)) = [c]
              ∧ socketConnection r1.1 = socketConnection w2)
      as (r1 & -> & Hmid & Hreg).
    { eexists. split; [|split].
      - unfold advance. rewrite Htimers, !List.filter_app. simpl.
        rewrite !Hdue. simpl. rewrite run_timers_app. simpl.
        by rewrite app_nil_r.
      - apply run_timers_spares; [by apply filter_due_spares|].
        simpl. by rewrite Hchats.
      - by rewrite run_timers_registry. }
    cbn [fst snd].
    assert (List.filter (matches q) (Chats (db (h_world (fire tm r1.1)))) = [])
      as Hgone.
    { destruct (fire_frame tm r1.1) as [_ ->]. simpl. fold me. fold q.
      by apply filter_deleteFirst_only with c. }
    split; [by rewrite filter_findOne, Hgone|]. split.
    + intros Hin.
      assert (c ∈ List.filter (matches q)
                    (Chats (db (h_world (fire tm r1.1))))) as Hin'.
      { apply list_elem_of_In, filter_In. split; [by apply list_elem_of_In|].
        assert (c ∈ [c]) as Hcc by apply list_elem_of_here.
        rewrite <- Hc in Hcc.
        by apply list_elem_of_In, filter_In in Hcc as [_ ?]. }
      rewrite Hgone in Hin'. by apply elem_of_nil in Hin'.
    + exists r1.2. unfold fire. simpl. fold me. by rewrite Hreg.
Qed.

(** *** The connection callback *)

Lemma call_each_connection :
  call_each socket_utils_scope
    ["sendMessageService"; "removeSocket"; "deleteChatAfter24Hour"] []
  = (["sendMessage"; "disconnect"],
     Some (ReferenceError "deleteChatAfter24Hour")).
Proof. reflexivity. Qed.

(** No listener but the one of ["deleteChat"] arms a timer. *)
Lemma step_timers_nil (w : World) (e : Event) :
  (∀ socket data, e ≠ DeleteChat socket data) →
  timers w = [] → timers (step w e) = [].
Proof.
  intros Hne Hnil.
  destruct e as [s|s|s d|s d|req|req|req|us cs|t]; simpl; try done.
  - unfold registerSocketId. by destruct (await _).
  - unfold removeSocket. by destruct (await _).
  - by destruct (sendMessage_frame w s d) as (_ & _ & _ & _ & _ & _ & ->).
  - by destruct (Hne s d).
  - destruct (next_called _); [|done].
    unfold deleteChatHistoryServicve. by destruct (loggedInUser _).
  - unfold signOutService.
    destruct (jwt_verify _ (headers_token req) _); [|done].
    by destruct (jwt_verify _ (headers_refreshtoken req) _).
  - unfold advance. by rewrite Hnil.
Qed.

Lemma never_armed_listens (s : Server) (socket : Socket) :
  never_armed s → listens s socket "deleteChat" = false.
Proof.
  intros [_ Hl]. unfold listens. apply bool_decide_eq_false_2.
  destruct (sv_listeners s !! socket_id socket) as [events|] eqn:E; simpl.
  - by apply (Hl _ _ E).
  - apply not_elem_of_nil.
Qed.

Lemma serve_never_armed (s : Server) (e : Event) :
  never_armed s → never_armed (serve s e).
Proof.
  intros Hs. pose proof Hs as [Hnil Hl].
  assert (∀ e', (∀ socket data, e' ≠ DeleteChat socket data) →
                never_armed (with_world (step (sv_world s) e') s)) as Hstep.
  { intros e' He'. split; [|done]. by apply step_timers_nil. }
  destruct e as [sk|sk|sk d|sk d|req|req|req|us cs|t]; cbn [serve];
    try by apply Hstep.
  - unfold establishIoConnection.
    destruct (registerSocketId (sv_world s) sk) as [[w' msg]|err] eqn:E;
      [|done].
    rewrite call_each_connection. split; cbn [fst sv_world sv_listeners].
    + unfold registerSocketId in E. destruct (await _); [|done].
      injection E as <- _. done.
    + intros sid events. rewrite lookup_insert_Some.
      intros [[_ <-]|[_ Hsid]]; [|by apply (Hl _ _ Hsid)].
      intros Hin. repeat (apply elem_of_cons in Hin as [Hin|Hin]; [done|]).
      by apply elem_of_nil in Hin.
  - split; cbn [sv_world sv_listeners].
    + destruct (listens s sk "disconnect"); [|done].
      by apply step_timers_nil.
    + intros sid events [_ Hsid]%lookup_delete_Some. by apply (Hl _ _ Hsid).
  - destruct (listens s sk "sendMessage"); [|done]. by apply Hstep.
  - by rewrite never_armed_listens.
Qed.

Lemma serve_all_never_armed (evs : list Event) (s : Server) :
  never_armed s → never_armed (serve_all evs s).
Proof.
  revert s. induction evs as [|e evs IH]; intros s Hs; simpl; [done|].
  apply IH. by apply serve_never_armed.
Qed.

Lemma boot_never_armed (d : DB) (e : Env) (t : Z) (oid : N) :
  never_armed (boot d e t oid).
Proof.
  split; [done|]. intros sid events. unfold boot; simpl.
  by rewrite lookup_empty.
Qed.

(** C7. The ["deleteChat"] listener is never put on a socket.  The connection
callback calls [deleteChatAfter24Hour], a name its module does not bind:
every connection that passes authentication ends in a [ReferenceError], after
the ["sendMessage"] and ["disconnect"] listeners have been registered.  So,
from the start of the server and after any events, no socket listens to
["deleteChat"], such an event changes nothing, no timer is pending, and the
passing of time deletes no conversation.  In the scenario account 1 connects,
opens a conversation with account 2 and asks for its deletion: 24 hours later
the conversation is still stored. *)
Theorem deleteChat_listener_is_never_registered (d : DB) (e : Env) (t0 : Z)
    (oid : N) (evs : list Event) :
  let s := serve_all evs (boot d e t0 oid) in
  (∀ socket,
     (establishIoConnection s socket).2
     = Some (ReferenceError "deleteChatAfter24Hour")
     ∨ ∃ err, (establishIoConnection s socket).2
              = Some (AuthenticationFailed err))
  ∧ (∀ socket, listens s socket "deleteChat" = false)
  ∧ (∀ socket data, serve s (DeleteChat socket data) = s)
  ∧ timers (sv_world s) = []
  ∧ (∀ t, Chats (db (advance t (sv_world s)).1) = Chats (db (sv_world s)))
  ∧ let socket := ex_socket "sock-1" 1 "jti-1" in
    let s1 :=
      serve_all [ Connection socket; SendMessage socket (ex_hello 2);
                  DeleteChat socket (ex_hello 2);
                  ClockReaches (1000000 + 86400000) ]
        (boot (db ex_world) ex_env 1000000 100) in
    sv_listeners s1 !! "sock-1" = Some ["sendMessage"; "disconnect"]
    ∧ Chats (db (sv_world s1)) = [ex_chat]
    ∧ now (sv_world s1) = 87400000%Z.
Proof.
  intros s.
  assert (never_armed s) as Hs
    by apply serve_all_never_armed, boot_never_armed.
  split; [|split; [|split; [|split; [|split]]]].
  - intros socket. unfold establishIoConnection.
    destruct (registerSocketId (sv_world s) socket) as [[w' msg]|err].
    + left. by rewrite call_each_connection.
    + right. by exists err.
  - intros socket. by apply never_armed_listens.
  - intros socket data. simpl. by rewrite never_armed_listens.
  - by destruct Hs.
  - intros t. destruct Hs as [Hnil _]. unfold advance. by rewrite Hnil.
  - vm_compute. done.
Qed.

(** ** Invariants of the transition system *)

Lemma oid_fresh_mono (w w' : World) :
  (∀ c, c ∈ Chats (db w') → c ∈ Chats (db w)) →
  (next_oid w ≤ next_oid w')%N →
  oid_fresh w → oid_fresh w'.
Proof.
  intros Hsub Hle Hfresh c m Hc Hm.
  specialize (Hfresh c m (Hsub c Hc) Hm). lia.
Qed.

Lemma sendMessage_oid_fresh (w : World) (socket : Socket)
    (data : MessageData) :
  oid_fresh w → oid_fresh (h_world (sendMessage w socket data)).
Proof.
  intros Hfresh. unfold sendMessage.
  destruct (await _) as [l|]; [|done].
  destruct (findOne _ (Chats _)) eqn:E.
  - intros c m Hc Hm. simpl in *.
    destruct (updateFirst_addToSet_messages _ _ _ _ _ Hc Hm)
      as [(c0 & Hc0 & Hm0)| ->].
    + specialize (Hfresh c0 m Hc0 Hm0). lia.
    + simpl. lia.
  - destruct (Company.findOne _ _).
    + intros c m Hc Hm. simpl in *.
      apply elem_of_app in Hc as [Hc|Hc].
      * specialize (Hfresh c m Hc Hm). lia.
      * apply list_elem_of_singleton in Hc as ->. simpl in Hm.
        apply list_elem_of_singleton in Hm as ->. simpl. lia.
    + apply (oid_fresh_mono w); simpl; [done|lia|done].
Qed.

Lemma run_timers_chats_subset (ts : list Timer) (w : World) (c : Chat.doc) :
  c ∈ Chats (db (run_timers ts w).1) → c ∈ Chats (db w).
Proof.
  revert w. induction ts as [|t rest IH]; intros w; simpl; [done|].
  specialize (IH (h_world (fire t w))).
  destruct (run_timers rest (h_world (fire t w))) as [w1 o1]; simpl in *.
  intros Hc. specialize (IH Hc). destruct (fire_frame t w) as [_ Hch].
  rewrite Hch in IH. by apply deleteFirst_subset in IH.
Qed.

Lemma run_timers_next_oid (ts : list Timer) (w : World) :
  next_oid (run_timers ts w).1 = next_oid w.
Proof.
  revert w. induction ts as [|t rest IH]; intros w; simpl; [done|].
  specialize (IH (h_world (fire t w))).
  destruct (run_timers rest (h_world (fire t w))) as [w1 o1]; simpl in *.
  rewrite IH. unfold fire. by destruct (logged_id _).
Qed.

(** Message ids stay below the generator along every run. *)
Lemma step_oid_fresh (w : World) (e : Event) :
  oid_fresh w → oid_fresh (step w e).
Proof.
  intros Hfresh.
  destruct e as [s|s|s d|s d|req|req|req|us cs|t]; simpl; try done.
  - unfold registerSocketId. by destruct (await _).
  - unfold removeSocket. by destruct (await _).
  - by apply sendMessage_oid_fresh.
  - unfold deleteChat. by destruct (await _).
  - destruct (next_called _); [|done].
    unfold deleteChatHistoryServicve.
    destruct (loggedInUser _); [|done].
    apply (oid_fresh_mono w); simpl; [|lia|done].
    intros c. apply deleteFirst_subset.
  - unfold signOutService.
    destruct (jwt_verify _ (headers_token req) _); [|done].
    by destruct (jwt_verify _ (headers_refreshtoken req) _).
  - unfold advance. eapply oid_fresh_mono; [| |exact Hfresh].
    + intros c Hc. by apply run_timers_chats_subset in Hc.
    + rewrite run_timers_next_oid. simpl. lia.
Qed.

Lemma no_chats_oid_fresh (w : World) : Chats (db w) = [] → oid_fresh w.
Proof. intros E c m Hc. rewrite E in Hc. by apply elem_of_nil in Hc. Qed.

Lemma run_oid_fresh (evs : list Event) (w : World) :
  oid_fresh w → oid_fresh (run evs w).
Proof.
  revert w. induction evs as [|e evs IH]; intros w H; simpl; [done|].
  by apply IH, step_oid_fresh.
Qed.

Section FilterLength.
Context {D : Type} `{!Document D}.

Lemma filter_deleteFirst_length (p : D → bool) (q : Query) (coll : list D) :
  length (List.filter p (deleteFirst q coll)) ≤ length (List.filter p coll).
Proof.
  induction coll as [|d rest IH]; simpl; [done|].
  destruct (matches q d); simpl.
  - destruct (p d); simpl; lia.
  - destruct (p d); simpl; lia.
Qed.

Lemma filter_updateFirst_length (p : D → bool) (q : Query) (f : D → D)
    (coll : list D) :
  (∀ d, p (f d) = p d) →
  length (List.filter p (updateFirst q f coll)) = length (List.filter p coll).
Proof.
  intros Hf. induction coll as [|d rest IH]; simpl; [done|].
  destruct (matches q d); simpl.
  - rewrite Hf. by destruct (p d).
  - destruct (p d); simpl; by rewrite IH.
Qed.
End FilterLength.

(** Two filters that both select a conversation select the same ones. *)
Lemma pair_query_same_pair (me me' : option ObjectId) (r r' : ObjectId)
    (c d : Chat.doc) :
  matches (pair_query me r) c = true →
  matches (pair_query me' r') c = true →
  matches (pair_query me' r') d = true →
  matches (pair_query me r) d = true.
Proof.
  rewrite !pair_query_matches.
  repeat case_bool_decide; simpl; try done; intros _ _ _; congruence.
Qed.

Lemma sendMessage_one_chat_per_pair (w : World) (socket : Socket)
    (data : MessageData) :
  one_chat_per_pair w → one_chat_per_pair (h_world (sendMessage w socket data)).
Proof.
  intros Hone. unfold sendMessage.
  destruct (await _) as [l|]; [|done].
  destruct (findOne _ (Chats _)) as [c0|] eqn:E.
  - intros me r. simpl.
    rewrite filter_updateFirst_length; [apply Hone|].
    intros d. apply pair_query_addToSet.
  - destruct (Company.findOne _ _) as [co|]; [|done].
    intros me r. simpl. rewrite List.filter_app, length_app. simpl.
    set (chat := {| Chat._id := _ |}).
    destruct (matches (pair_query me r) chat) eqn:Em; simpl;
      [|specialize (Hone me r); lia].
    destruct (List.filter (matches (pair_query me r)) (Chats (db w)))
      as [|d rest] eqn:Ef; [simpl; lia|exfalso].
    assert (d ∈ d :: rest) as Hd by apply list_elem_of_here.
    rewrite <- Ef in Hd.
    apply list_elem_of_In, filter_In in Hd as [Hd Hmd].
    apply list_elem_of_In in Hd.
    rewrite findOne_None_iff in E. specialize (E d Hd).
    assert (matches (pair_query (logged_id l) (receiverId data)) chat = true)
      as Hnew.
    { rewrite pair_query_matches. simpl.
      rewrite (bool_decide_eq_true_2 (logged_id l = logged_id l)) by done.
      by rewrite (bool_decide_eq_true_2 (Some _ = Some _)) by done. }
    rewrite (pair_query_same_pair _ _ _ _ _ _ Hnew Em Hmd) in E. done.
Qed.

Lemma run_timers_one_chat_per_pair (ts : list Timer) (w : World) :
  one_chat_per_pair w → one_chat_per_pair (run_timers ts w).1.
Proof.
  revert w. induction ts as [|t rest IH]; intros w Hone; simpl; [done|].
  specialize (IH (h_world (fire t w))).
  destruct (run_timers rest (h_world (fire t w))) as [w1 o1]; simpl in *.
  apply IH. intros me r. destruct (fire_frame t w) as [_ ->].
  etrans; [apply filter_deleteFirst_length|apply Hone].
Qed.

Lemma step_one_chat_per_pair (w : World) (e : Event) :
  one_chat_per_pair w → one_chat_per_pair (step w e).
Proof.
  intros Hone.
  destruct e as [s|s|s d|s d|req|req|req|us cs|t]; simpl; try done.
  - unfold registerSocketId. by destruct (await _).
  - unfold removeSocket. by destruct (await _).
  - by apply sendMessage_one_chat_per_pair.
  - unfold deleteChat. by destruct (await _).
  - destruct (next_called _); [|done].
    unfold deleteChatHistoryServicve.
    destruct (loggedInUser _); [|done].
    intros me r. simpl.
    etrans; [apply filter_deleteFirst_length|apply Hone].
  - unfold signOutService.
    destruct (jwt_verify _ (headers_token req) _); [|done].
    by destruct (jwt_verify _ (headers_refreshtoken req) _).
  - unfold advance. by apply run_timers_one_chat_per_pair.
Qed.

Lemma no_chats_one_chat_per_pair (w : World) :
  Chats (db w) = [] → one_chat_per_pair w.
Proof. intros E me r. rewrite E. simpl. lia. Qed.

Lemma run_one_chat_per_pair (evs : list Event) (w : World) :
  one_chat_per_pair w → one_chat_per_pair (run evs w).
Proof.
  revert w. induction evs as [|e evs IH]; intros w H; simpl; [done|].
  by apply IH, step_one_chat_per_pair.
Qed.

(** Under the invariant, the conversation a lookup finds is the only one of
its pair. *)
Lemma one_chat_found_only (w : World) (me : option ObjectId) (r : ObjectId)
    (c : Chat.doc) :
  one_chat_per_pair w →
  findOne (pair_query me r) (Chats (db w)) = Some c →
  List.filter (matches (pair_query me r)) (Chats (db w)) = [c].
Proof.
  intros Hone Hc. rewrite filter_findOne in Hc. specialize (Hone me r).
  destruct (List.filter _ _) as [|d [|d' rest]]; simpl in *;
    [done|congruence|lia].
Qed.

(** ** The scenario, checked *)

Lemma ex_world_fresh : oid_fresh ex_world.
Proof. intros c m Hc. by apply elem_of_nil in Hc. Qed.

Lemma ex_chat_world_fresh : oid_fresh ex_chat_world.
Proof. apply sendMessage_oid_fresh, ex_world_fresh. Qed.

Example ex_chat_world_chats : Chats (db ex_chat_world) = [ex_chat].
Proof. reflexivity. Qed.

(** The creator of the live company is turned away as well: the filter asks
for [cretaedBy], the schema path is [createdBy]. *)
Example company_creator_is_rejected :
  Company.createdBy ex_company = 3%N
  ∧ h_emitted (sendMessage ex_world (ex_socket "sock-3" 3 "jti-3") (ex_hello 2))
    = [ Emit "sock-3" "error" unauthorized ].
Proof. split; reflexivity. Qed.

(** C1, counterexample: account 4 is creator and HR of a company document,
but that company is soft-deleted and hidden by the company find hook; the
first message of account 4 is rejected and nothing is stored. *)
Lemma hr_of_deleted_company_rejected :
  let socket := ex_socket "sock-4" 4 "jti-4" in
  let h := sendMessage ex_world socket (ex_hello 2) in
  await (authenticationMiddleware ex_world (accesstoken socket))
    = Ret (IsIdentity (ex_identity 4 "jti-4"))
  ∧ findOne (pair_query (Some 4%N) 2) (Chats (db ex_world)) = None
  ∧ holds_company_role (Companies (db ex_world)) 4
  ∧ h_emitted h = [ Emit "sock-4" "error" unauthorized ]
  ∧ db (h_world h) = db ex_world.
Proof.
  simpl. split; [reflexivity|]. split; [reflexivity|]. split.
  - exists ex_closed_company. split.
    + apply list_elem_of_further, list_elem_of_here.
    + left. apply list_elem_of_here.
  - split; reflexivity.
Qed.

Lemma first_message_authorization_witness :
  let s1 := ex_socket "sock-1" 1 "jti-1" in
  let s2 := ex_socket "sock-2" 2 "jti-2" in
  (Chats (db (h_world (sendMessage ex_world s1 (ex_hello 2)))) = [ex_chat]
   ∧ h_emitted (sendMessage ex_world s1 (ex_hello 2))
     = deliver ex_world s1 (ex_hello 2) ex_chat)
  ∧ (h_emitted (sendMessage ex_world s2 (ex_hello 1))
     = [ Emit "sock-2" "error" unauthorized ]
     ∧ db (h_world (sendMessage ex_world s2 (ex_hello 1))) = db ex_world).
Proof.
  intros s1 s2. split.
  - destruct (first_message_authorization ex_world s1 (ex_hello 2)
                (ex_identity 1 "jti-1")) as [Hstart _];
      [reflexivity | reflexivity |].
    destruct Hstart as (Hchats & Hout & _).
    + exists ex_company. split; [apply list_elem_of_here|].
      split; [reflexivity|apply list_elem_of_here].
    + split; [exact Hchats | exact Hout].
  - destruct (first_message_authorization ex_world s2 (ex_hello 1)
                (ex_identity 2 "jti-2")) as [_ Hreject];
      [reflexivity | reflexivity |].
    destruct Hreject as (Hout & Hdb & _).
    + intros c Hc Hlive.
      apply elem_of_cons in Hc as [->|Hc].
      * split; [|discriminate]. intros Hin.
        apply list_elem_of_singleton in Hin. discriminate.
      * apply list_elem_of_singleton in Hc as ->. discriminate.
    + split; [exact Hout | exact Hdb].
Defined.

Lemma rejected_request_still_proceeds_witness :
  let run := run_middleware ex_signed_out ex_signout_request fresh_response in
  next_called run = true
  ∧ statusCode (mw_res run) = 403
  ∧ loggedInUser (mw_req run) = Some (IsResponse (mw_res run)).
Proof.
  destruct (rejected_request_still_proceeds ex_signed_out ex_signout_request
              fresh_response
              {| p_id := 1; p_name := "Ada Byron";
                 p_email := "ada@example.org"; jti := "jti-1"; exp := 2000 |})
    as (Hnext & Hstatus & _ & Hbound & _).
  - reflexivity.
  - left. exists {| BlackListTokens.tokenId := "jti-1";
                    BlackListTokens.expierdAt := 2000 |}.
    split; [apply list_elem_of_here | reflexivity].
  - split; [exact Hnext|]. split; [exact Hstatus | exact Hbound].
Defined.

Lemma revoked_token_never_accepted_witness :
  let later := run [ ClockReaches 1500000;
                     Connection (ex_socket "sock-9" 1 "jti-1");
                     SendMessage (ex_socket "sock-1" 1 "jti-1") (ex_hello 2) ]
                 ex_signed_out in
  signOutService ex_world ex_signout_request fresh_response
    = Ret (ex_signed_out,
           status_json 201 (JMessage "Logged out Successfully") fresh_response)
  ∧ validateUserToken later (Some (ex_access 1 "jti-1")) (Some fresh_response)
    = Ret (IsResponse
             (status_json 403
                (JMessage "Token blackklisted, please login again")
                fresh_response))
  ∧ ∀ i, await (authenticationMiddleware later (Some (ex_access 1 "jti-1")))
         ≠ Ret (IsIdentity i).
Proof.
  intros later.
  assert (signOutService ex_world ex_signout_request fresh_response
          = Ret (ex_signed_out,
                 status_json 201 (JMessage "Logged out Successfully")
                   fresh_response)) as Hout by reflexivity.
  split; [exact Hout|].
  destruct (revoked_token_never_accepted ex_world ex_signed_out
              ex_signout_request fresh_response _
              [ ClockReaches 1500000;
                Connection (ex_socket "sock-9" 1 "jti-1");
                SendMessage (ex_socket "sock-1" 1 "jti-1") (ex_hello 2) ]
              (ex_access 1 "jti-1") Hout)
    as (_ & _ & _ & Hsock & Hvalid).
  - left. reflexivity.
  - split; [|exact Hsock].
    destruct (Hvalid {| p_id := 1; p_name := "Ada Byron";
                        p_email := "ada@example.org"; jti := "jti-1";
                        exp := 2000 |}) as [Hhttp _]; [reflexivity|].
    apply Hhttp.
Defined.

Lemma soft_deleted_cannot_authenticate_witness :
  User.isDeleted (ex_user 5 true) = true
  ∧ validateUserToken ex_world (Some (ex_access 5 "jti-5")) (Some fresh_response)
    = Ret (IsResponse (status_json 403 (JMessage "Please Signup")
                         fresh_response))
  ∧ ∀ r i, validateUserToken ex_world (Some (ex_access 5 "jti-5")) r
           ≠ Ret (IsIdentity i).
Proof.
  split; [reflexivity|].
  destruct (soft_deleted_cannot_authenticate ex_world (ex_access 5 "jti-5")
              {| p_id := 5; p_name := "Ada Byron";
                 p_email := "ada@example.org"; jti := "jti-5"; exp := 2000 |})
    as (_ & _ & Hhttp & _ & Hnever).
  - reflexivity.
  - reflexivity.
  - intros u Hu Hid.
    repeat (apply elem_of_cons in Hu as [->|Hu]; [try discriminate Hid|]).
    + reflexivity.
    + by apply elem_of_nil in Hu.
  - split; [apply Hhttp | exact Hnever].
Defined.

(** C9, counterexample: accounts 1 and 2 have no conversation, and the fetch
answers [chat: null]: there is no message list in the response. *)
Lemma fetch_without_conversation_is_null :
  let l := IsIdentity (ex_identity 1 "jti-1") in
  findOne (pair_query (logged_id l) 2) (Chats (db ex_world)) = None
  ∧ ¬ returns_empty_history
        (getChatServices ex_world (chat_request l 2) fresh_response).
Proof.
  split; [reflexivity|].
  intros (r & msg & pc & Hr & Hs & _).
  injection Hr as <-. discriminate Hs.
Qed.

Lemma fetch_without_conversation_witness :
  getChatServices ex_world
    (chat_request (IsIdentity (ex_identity 1 "jti-1")) 2) fresh_response
  = Ret {| statusCode := 201;
           sent := Some (JChat "Chat history fetched successfully" None) |}.
Proof.
  apply (fetch_without_conversation ex_world
           (IsIdentity (ex_identity 1 "jti-1")) 2 fresh_response).
  reflexivity.
Defined.

Lemma sender_comes_from_the_token_witness :
  let socket := ex_socket "sock-1" 1 "jti-1" in
  let forged := {| body := "Hello"; receiverId := 2; senderId := Some 3%N |} in
  sendMessage ex_world socket (ex_hello 2) = sendMessage ex_world socket forged
  ∧ Chat.m_senderId <$> Chat.messages ex_chat = [Some 1%N].
Proof.
  intros socket forged.
  destruct (sender_comes_from_the_token ex_world socket (ex_hello 2) forged
              (IsIdentity (ex_identity 1 "jti-1")))
    as (Hsame & _ & _); [reflexivity | reflexivity | reflexivity |].
  split; [exact Hsame | reflexivity].
Defined.

Lemma history_is_append_order_witness :
  let sa := ex_socket "sock-1" 1 "jti-1" in
  let sb := ex_socket "sock-2" 2 "jti-2" in
  let ia := ex_identity 1 "jti-1" in
  let ib := ex_identity 2 "jti-2" in
  let after := exchange sa sb 1 2 [(false, "Hi"); (true, "Bye")] ex_chat_world in
  pm_body <$> history ex_chat_world (IsIdentity ia) 2 = [Some "Hello"]
  ∧ pm_body <$> history after (IsIdentity ia) 2
    = [Some "Hello"; Some "Hi"; Some "Bye"]
  ∧ pm_body <$> history after (IsIdentity ib) 1
    = [Some "Hello"; Some "Hi"; Some "Bye"].
Proof.
  intros sa sb ia ib after.
  destruct (history_is_append_order ex_chat_world sa sb ia ib)
    as [Hrun _]; [reflexivity | reflexivity | exact ex_chat_world_fresh |].
  destruct (Hrun [(false, "Hi"); (true, "Bye")] ex_chat) as [Ha Hb];
    [reflexivity|].
  split; [reflexivity|].
  rewrite (Ha : history after (IsIdentity ia) 2 = _).
  rewrite (Hb : history after (IsIdentity ib) 1 = _).
  split; reflexivity.
Defined.

Lemma deferred_deletion_after_24_hours_witness :
  let socket := ex_socket "sock-1" 1 "jti-1" in
  let armed := h_world (deleteChat ex_chat_world socket (ex_hello 2)) in
  findOne (pair_query (Some 1%N) 2)
    (Chats (db (advance (1000000 + 86340000) armed).1)) = Some ex_chat
  ∧ findOne (pair_query (Some 1%N) 2)
      (Chats (db (advance (1000000 + 86400000) armed).1)) = None
  ∧ (advance (1000000 + 86400000) armed).2
    = [ EmitTo "sock-1" (Some "sock-2") "chatDeleted" chatDeleted;
        EmitTo "sock-1" None "chatDeleted" chatDeleted ].
Proof.
  intros socket armed.
  destruct (deferred_deletion_after_24_hours ex_chat_world socket (ex_hello 2)
              (ex_identity 1 "jti-1") ex_chat)
    as [_ Hlater]; [reflexivity | reflexivity | constructor |].
  destruct (Hlater armed) as (Hbefore & Hgone & _ & _);
    [reflexivity | reflexivity |].
  split; [apply Hbefore; reflexivity|].
  split; [exact Hgone | reflexivity].
Defined.

(** ** The jump game *)

Lemma canJump_loop_spec (nums pre rest : list Z) (max : Z) :
  nums = pre ++ rest →
  (0 ≤ max)%Z →
  (rest = [] → max < Z.of_nat (length nums) - 1)%Z →
  (∀ j : nat, (Z.of_nat j ≤ max)%Z → reachable nums j) →
  (∀ (k : nat) (x : Z), k < length pre → nums !! k = Some x →
                        reachable nums k → (Z.of_nat k + x ≤ max)%Z) →
  canJump_loop (Z.of_nat (length nums)) (Z.of_nat (length pre)) max rest = true
  ↔ reachable nums (length nums - 1).
Proof.
  revert pre max. induction rest as [|x rest IH]; intros pre max Hnums Hmax Hend
    Hlow Hhigh.
  - (* every index was visited and the far end never came within reach *)
    simpl. split; [done|]. intros Hreach. exfalso.
    assert (∀ j, reachable nums j → (Z.of_nat j ≤ max)%Z) as Hall.
    { intros j Hj. induction Hj as [|i j y Hi IHi Hy Hij Hjy]; [lia|].
      assert (i < length pre) as Hi'.
      { apply lookup_lt_Some in Hy. rewrite Hnums, app_nil_r in Hy. done. }
      specialize (Hhigh i y Hi' Hy Hi). lia. }
    specialize (Hall _ Hreach). specialize (Hend eq_refl). lia.
  - assert (length nums = length pre + S (length rest)) as Hlen.
    { rewrite Hnums, length_app. done. }
    assert (nums !! length pre = Some x) as Hx.
    { rewrite Hnums. by rewrite list_lookup_middle. }
    simpl. destruct (max <? Z.of_nat (length pre))%Z eqn:Estuck.
    + (* stuck before index i *)
      apply Z.ltb_lt in Estuck. split; [done|]. intros Hreach. exfalso.
      assert (∀ j, reachable nums j → (Z.of_nat j ≤ max)%Z) as Hall.
      { intros j Hj. induction Hj as [|i j y Hi IHi Hy Hij Hjy]; [lia|].
        assert (i < length pre) as Hi' by lia.
        specialize (Hhigh i y Hi' Hy Hi). lia. }
      specialize (Hall _ Hreach). lia.
    + apply Z.ltb_ge in Estuck.
      pose proof (Hlow (length pre) Estuck) as Hi.
      destruct (Z.of_nat (length nums) - 1 <=? max `max` (Z.of_nat (length pre) + x))%Z
        eqn:Edone.
      * apply Z.leb_le in Edone. split; [intros _|done].
        destruct (decide (Z.of_nat (length nums) - 1 ≤ max)%Z) as [Hle|Hgt].
        -- apply Hlow. lia.
        -- apply (reach_jump nums (length pre) _ x Hi Hx); lia.
      * apply Z.leb_gt in Edone.
        replace (Z.of_nat (length pre) + 1)%Z
          with (Z.of_nat (length (pre ++ [x]))) by (rewrite length_app; simpl; lia).
        apply IH.
        -- by rewrite <- app_assoc.
        -- lia.
        -- intros _. lia.
        -- intros j Hj.
           destruct (decide (Z.of_nat j ≤ max)%Z) as [Hle|Hgt]; [by apply Hlow|].
           apply (reach_jump nums (length pre) _ x Hi Hx); lia.
        -- intros k y Hk Hy Hrk. rewrite length_app in Hk. simpl in Hk.
           destruct (decide (k < length pre)) as [Hlt|Hge].
           ++ specialize (Hhigh k y Hlt Hy Hrk). lia.
           ++ assert (k = length pre) as -> by lia.
              rewrite Hx in Hy. injection Hy as <-. lia.
Qed.

Lemma canJump_iff_reachable (nums : list Z) :
  canJump nums = true ↔ nums ≠ [] ∧ reachable nums (length nums - 1).
Proof.
  destruct (decide (nums = [])) as [->|Hne].
  { split; [done|]. by intros [? _]. }
  unfold canJump.
  rewrite (canJump_loop_spec nums [] nums 0); try done.
  - split; [intros H; by split | by intros [_ H]].
  - intros j Hj. assert (j = 0) as -> by lia. constructor.
  - simpl. intros k x Hk. lia.
Qed.

(** X1. [canJump] says yes exactly when the array is not empty and its last index
can be reached from the first. *)
Theorem canJump_correct (nums : list Z) :
  canJump nums = true ↔ nums ≠ [] ∧ reachable nums (length nums - 1).
Proof. apply canJump_iff_reachable. Qed.

Lemma reachable_mono (nums nums' : list Z) (j : nat) :
  Forall2 (λ x y, (x ≤ y)%Z) nums nums' →
  reachable nums j → reachable nums' j.
Proof.
  intros Hle Hj. induction Hj as [|i j x Hi IHi Hx Hij Hjx]; [constructor|].
  destruct (Forall2_lookup_l _ _ _ _ _ Hle Hx) as (y & Hy & Hxy).
  apply (reach_jump nums' i j y IHi Hy); lia.
Qed.

(** X2. Raising entries of the array never turns a yes of [canJump] into a
no. *)
Theorem canJump_monotone (nums nums' : list Z) :
  Forall2 (λ x y, (x ≤ y)%Z) nums nums' →
  canJump nums = true → canJump nums' = true.
Proof.
  intros Hle. rewrite !canJump_iff_reachable. intros [Hne Hreach].
  pose proof (Forall2_length _ _ _ Hle) as Hlen. split.
  - intros ->. destruct nums; [done|]. simpl in Hlen. lia.
  - rewrite <- Hlen. by apply reachable_mono with nums.
Qed.

Lemma canJump_monotone_witness :
  canJump [2; 0; 1; 0]%Z = true ∧ canJump [2; 5; 1; 0]%Z = true.
Proof.
  assert (canJump [2; 0; 1; 0]%Z = true) as H by reflexivity.
  split; [exact H|].
  apply (canJump_monotone [2; 0; 1; 0]%Z [2; 5; 1; 0]%Z); [|exact H].
  repeat constructor; lia.
Defined.

Example canJump_first_script_line : canJump [2; 3; 1; 1; 4]%Z = true.
Proof. reflexivity. Qed.

Example canJump_second_script_line : canJump [3; 2; 1; 0; 4]%Z = false.
Proof. reflexivity. Qed.

(** ** The connection registry *)

Lemma await_identity_truthy (w : World) (socket : Socket) (l : LoggedIn) :
  await (authenticationMiddleware w (accesstoken socket)) = Ret l →
  l = IsMiddleware
  ∨ ∃ i, l = IsIdentity i
         ∧ validateUserToken w (accesstoken socket) None = Ret (IsIdentity i).
Proof.
  unfold authenticationMiddleware.
  destruct (accesstoken socket) as [t|]; simpl; [|intros [= <-]; by left].
  destruct (token_truthy t); simpl; [|intros [= <-]; by left].
  intros Hv. right. unfold validateUserToken in *.
  destruct (jwt_verify _ _ _); [|done].
  destruct (findOne (tokenId_query _) _); [done|].
  destruct (User.findById _ _); [|done].
  injection Hv as <-. by eexists.
Qed.

Lemma registerSocketId_identity (w : World) (socket : Socket) (i : Identity) :
  await (authenticationMiddleware w (accesstoken socket)) = Ret (IsIdentity i) →
  registerSocketId w socket
  = Ret (set_socketConnection
           (<[Some (User._id (i_user i)) := socket_id socket]>
              (socketConnection w)) w,
         "socket connected successfully").
Proof. intros Hauth. unfold registerSocketId. by rewrite Hauth. Qed.

(** X3. A successful handshake binds the identity to the socket: the registry
answers with this socket whatever it held for the identity before, every
other binding is as it was, and the database is not touched. *)
Theorem register_then_resolve (w : World) (socket : Socket) (i : Identity) :
  await (authenticationMiddleware w (accesstoken socket)) = Ret (IsIdentity i) →
  ∃ w', registerSocketId w socket = Ret (w', "socket connected successfully")
        ∧ socketConnection w' !! Some (User._id (i_user i))
          = Some (socket_id socket)
        ∧ (∀ k, k ≠ Some (User._id (i_user i)) →
                socketConnection w' !! k = socketConnection w !! k)
        ∧ db w' = db w ∧ timers w' = timers w.
Proof.
  intros Hauth. unfold registerSocketId. rewrite Hauth. simpl.
  eexists. split; [done|]. simpl. split; [apply lookup_insert_eq|].
  split; [|done]. intros k Hk. by apply lookup_insert_ne.
Qed.

(** X4. A disconnect whose token still validates removes the binding of the
identity and no other; when the identity was not bound the registry stays as
it is, so a second disconnect is a no-op. *)
Theorem unregister_is_idempotent (w : World) (socket : Socket) (i : Identity) :
  await (authenticationMiddleware w (accesstoken socket)) = Ret (IsIdentity i) →
  ∃ w', removeSocket w socket = Ret (w', "disConnected")
        ∧ socketConnection w' !! Some (User._id (i_user i)) = None
        ∧ (∀ k, k ≠ Some (User._id (i_user i)) →
                socketConnection w' !! k = socketConnection w !! k)
        ∧ (socketConnection w !! Some (User._id (i_user i)) = None →
           socketConnection w' = socketConnection w)
        ∧ removeSocket w' socket = Ret (w', "disConnected").
Proof.
  intros Hauth. unfold removeSocket. rewrite Hauth. simpl.
  eexists. split; [done|]. simpl. split; [apply lookup_delete_eq|].
  split; [intros k Hk; by apply lookup_delete_ne|].
  split; [apply delete_id|].
  rewrite (authentication_stable w) by done. rewrite Hauth. simpl.
  do 2 f_equal. unfold set_socketConnection. simpl. f_equal.
  apply delete_id, lookup_delete_eq.
Qed.

(** X5. The registry is keyed by identity, not by socket: when an identity has
connected a second time and the first socket then disconnects, the identity
is left without a binding although its second socket is still connected. *)
Theorem stale_disconnect_unbinds (w w1 w2 w3 : World) (old new : Socket)
    (i : Identity) (m1 m2 m3 : string) :
  await (authenticationMiddleware w (accesstoken old)) = Ret (IsIdentity i) →
  await (authenticationMiddleware w (accesstoken new)) = Ret (IsIdentity i) →
  registerSocketId w old = Ret (w1, m1) →
  registerSocketId w1 new = Ret (w2, m2) →
  removeSocket w2 old = Ret (w3, m3) →
  socketConnection w2 !! Some (User._id (i_user i)) = Some (socket_id new)
  ∧ socketConnection w3 !! Some (User._id (i_user i)) = None.
Proof.
  intros Hold Hnew. unfold registerSocketId, removeSocket.
  rewrite Hold. simpl. intros [= <- <-].
  rewrite (authentication_stable w) by done. rewrite Hnew. simpl.
  intros [= <- <-].
  rewrite (authentication_stable w) by done. rewrite Hold. simpl.
  intros [= <- <-]. simpl. split; [apply lookup_insert_eq|apply lookup_delete_eq].
Qed.

Lemma advance_frame (t : Z) (w : World) :
  let w' := (advance t w).1 in
  socketConnection w' = socketConnection w ∧ env w' = env w
  ∧ Users (db w') = Users (db w) ∧ BlackList (db w') = BlackList (db w)
  ∧ now w' = Z.max (now w) t.
Proof.
  unfold advance.
  set (w0 := set_now _ _).
  assert (∀ ts w1, let w' := (run_timers ts w1).1 in
                   env w' = env w1 ∧ Users (db w') = Users (db w1)
                   ∧ now w' = now w1) as Hrun.
  { induction ts as [|tm rest IH]; intros w1; simpl; [done|].
    specialize (IH (h_world (fire tm w1))).
    destruct (run_timers rest (h_world (fire tm w1))) as [w2 o2]; simpl in *.
    destruct IH as (-> & -> & ->). unfold fire.
    by destruct (logged_id (t_loggedInUser tm)). }
  rewrite run_timers_registry, run_timers_blacklist.
  destruct (Hrun (List.filter (due t) (timers w)) w0) as (-> & -> & ->).
  done.
Qed.

(** X6. The disconnect listener validates the handshake token again.  Once the
clock has reached the token's expiry the validation throws, so a connection
that outlives its token is never taken out of the registry. *)
Theorem expired_socket_stays_bound (w : World) (socket : Socket)
    (i : Identity) (p : JwtPayload) (key : string) (t : Z) :
  accesstoken socket = Some (Jwt p key) →
  await (authenticationMiddleware w (accesstoken socket)) = Ret (IsIdentity i) →
  (exp p * 1000 ≤ t)%Z →
  ∃ w1 m, registerSocketId w socket = Ret (w1, m)
          ∧ let w2 := (advance t w1).1 in
            removeSocket w2 socket = Throw TokenExpiredError
            ∧ step w2 (Disconnect socket) = w2
            ∧ socketConnection w2 !! Some (User._id (i_user i))
              = Some (socket_id socket).
Proof.
  intros Htok Hauth Hexp.
  eexists _, _. split; [by apply registerSocketId_identity|].
  set (w1 := set_socketConnection _ w). intros w2.
  destruct (advance_frame t w1) as (Hsc & Henv & Hus & Hbl & Hnow).
  fold w2 in Hsc, Henv, Hus, Hbl, Hnow.
  assert (removeSocket w2 socket = Throw TokenExpiredError) as Hthrow.
  { apply await_identity_truthy in Hauth as [|(i' & _ & Hv)]; [done|].
    unfold removeSocket, authenticationMiddleware. rewrite Htok in *.
    simpl. unfold validateUserToken in *. simpl in *.
    rewrite Henv. simpl. case_bool_decide; [|done].
    rewrite Hnow. simpl.
    replace (exp p <=? (Z.max (now w) t) `div` 1000)%Z with true; [done|].
    symmetry. apply Z.leb_le. apply Z.div_le_lower_bound; lia. }
  split; [done|]. split.
  - simpl. by rewrite Hthrow.
  - rewrite Hsc. simpl. apply lookup_insert_eq.
Qed.

(** ** Sign-out and the open socket *)

(** On a socket, a token whose id is on the revocation list makes the
validation throw. *)
Lemma revoked_socket_throws (w : World) (t : Token) (j : string) :
  token_jti t = Some j →
  (∃ row, row ∈ BlackList (db w) ∧ BlackListTokens.tokenId row = j) →
  ∃ e, await (authenticationMiddleware w (Some t)) = Throw e.
Proof.
  intros Hj Hrow. unfold authenticationMiddleware.
  assert (token_truthy t = true) as -> by (destruct t; done).
  simpl. destruct (revoked_rejected w t j Hj Hrow) as [_ Hbranch].
  destruct (jwt_verify (now w) (Some t) (JWT_SECRET_LOGIN (env w)))
    as [d|e] eqn:Hv.
  - rewrite (Hbranch d eq_refl). simpl. by eexists.
  - unfold validateUserToken. rewrite Hv. by eexists.
Qed.

Lemma signOut_revokes_access (w w1 : World) (req : Request)
    (res res1 : Response) (evs : list Event) (t : Token) :
  signOutService w req res = Ret (w1, res1) →
  headers_token req = Some t →
  ∃ j, token_jti t = Some j
       ∧ ∃ row, row ∈ BlackList (db (run evs w1))
                ∧ BlackListTokens.tokenId row = j.
Proof.
  intros Hout Ht.
  apply signOut_inserts in Hout as (d & d' & Hd & _ & Hbl).
  rewrite Ht in Hd. apply jwt_verify_jti in Hd.
  exists (jti d). split; [done|].
  exists {| BlackListTokens.tokenId := jti d;
            BlackListTokens.expierdAt := exp d |}.
  split; [|done]. apply run_blacklist. rewrite Hbl.
  apply elem_of_app. right. apply list_elem_of_here.
Qed.

(** X7. Sign-out leaves the registry as it is, and from then on the disconnect
of a socket that was opened with the signed-out access token throws before it
reaches the registry: the binding is not removed by it. *)
Theorem signout_leaves_binding_behind (w w1 : World) (req : Request)
    (res res1 : Response) (evs : list Event) (socket : Socket) :
  signOutService w req res = Ret (w1, res1) →
  accesstoken socket = headers_token req →
  socketConnection w1 = socketConnection w
  ∧ let w2 := run evs w1 in
    (∃ e, removeSocket w2 socket = Throw e)
    ∧ socketConnection (step w2 (Disconnect socket)) = socketConnection w2.
Proof.
  intros Hout Hsock. split.
  { unfold signOutService in Hout.
    destruct (jwt_verify _ (headers_token req) _); [|done].
    destruct (jwt_verify _ (headers_refreshtoken req) _); [|done].
    by injection Hout as <- <-. }
  intros w2.
  assert (∃ t, headers_token req = Some t) as [t Ht].
  { unfold signOutService in Hout.
    destruct (headers_token req); [by eexists|done]. }
  destruct (signOut_revokes_access w w1 req res res1 evs t Hout Ht)
    as (j & Hj & Hrow).
  destruct (revoked_socket_throws (run evs w1) t j Hj Hrow) as [e He].
  fold w2 in He.
  assert (removeSocket w2 socket = Throw e) as Hthrow.
  { unfold removeSocket. by rewrite Hsock, Ht, He. }
  split; [by eexists|]. simpl. by rewrite Hthrow.
Qed.

(** X8. Every ["sendMessage"] validates the handshake token again: once the
token has been signed out, a message on the socket that is still open throws,
emits nothing and leaves the world as it is. *)
Theorem send_after_signout_is_refused (w w1 : World) (req : Request)
    (res res1 : Response) (evs : list Event) (socket : Socket)
    (data : MessageData) :
  signOutService w req res = Ret (w1, res1) →
  accesstoken socket = headers_token req →
  let w2 := run evs w1 in
  let h := sendMessage w2 socket data in
  (∃ e, h_thrown h = Some e) ∧ h_emitted h = [] ∧ h_world h = w2.
Proof.
  intros Hout Hsock w2 h.
  assert (∃ t, headers_token req = Some t) as [t Ht].
  { unfold signOutService in Hout.
    destruct (headers_token req); [by eexists|done]. }
  destruct (signOut_revokes_access w w1 req res res1 evs t Hout Ht)
    as (j & Hj & Hrow).
  destruct (revoked_socket_throws (run evs w1) t j Hj Hrow) as [e He].
  subst h. unfold sendMessage. fold w2 in He. rewrite Hsock, Ht, He. simpl.
  split; [by eexists|done].
Qed.

(** ** More on sending *)

(** X9. Only the first message of a pair is subject to the company check: into
an existing conversation any authenticated participant may write.  The send
is acknowledged with the conversation as it was before the message, the
message is stored behind the earlier ones under a new id, and the outcome
does not depend on the companies. *)
Theorem append_needs_no_role (w : World) (socket : Socket)
    (data : MessageData) (i : Identity) (c : Chat.doc) :
  await (authenticationMiddleware w (accesstoken socket)) = Ret (IsIdentity i) →
  oid_fresh w →
  let me := User._id (i_user i) in
  let q := pair_query (Some me) (receiverId data) in
  findOne q (Chats (db w)) = Some c →
  let h := sendMessage w socket data in
  let m := new_message (next_oid w) w (body data) (Some me) in
  h_emitted h = deliver w socket data c
  ∧ h_thrown h = None
  ∧ (m ∉ Chat.messages c)
  ∧ findOne q (Chats (db (h_world h)))
    = Some (with_messages c (Chat.messages c ++ [m]))
  ∧ ∀ cs,
      h_emitted (sendMessage (set_db (set_users_companies (Users (db w)) cs
                                        (db w)) w) socket data)
      = h_emitted h.
Proof.
  intros Hauth Hfresh me q Hc h m.
  destruct (sendMessage_appends w socket data (IsIdentity i) c Hauth Hfresh Hc)
    as (Hc' & _ & _).
  assert (h_emitted h = deliver w socket data c ∧ h_thrown h = None)
    as [Hout Hthrown].
  { subst h. unfold sendMessage. rewrite Hauth. simpl. fold me q.
    by rewrite Hc. }
  split; [done|]. split; [done|]. split; [|split; [exact Hc'|]].
  - intros Hin. apply findOne_Some_matches in Hc as [_ Hcin].
    specialize (Hfresh c m Hcin Hin). simpl in Hfresh. lia.
  - intros cs. rewrite Hout. unfold sendMessage.
    rewrite (authentication_stable w) by done. rewrite Hauth. simpl.
    fold me q. by rewrite Hc.
Qed.

(** X10. What a send writes to the database and throws does not depend on who is
connected: a message to a receiver without binding is stored and
acknowledged all the same, and its forward goes to the room [undefined]. *)
Theorem send_to_offline_receiver (w : World)
    (registry : gmap (option ObjectId) SocketId) (socket : Socket)
    (data : MessageData) :
  let h := sendMessage w socket data in
  let h' := sendMessage (set_socketConnection registry w) socket data in
  db (h_world h') = db (h_world h)
  ∧ h_thrown h' = h_thrown h
  ∧ head (h_emitted h') = head (h_emitted h)
  ∧ (registry !! Some (receiverId data) = None →
     ∀ e, e ∈ tail (h_emitted h') →
          e = EmitTo (socket_id socket) None "receiveMessage"
                (ReceivePayload (body data))).
Proof.
  intros h h'. subst h h'. unfold sendMessage.
  rewrite (authentication_stable w (set_socketConnection registry w)) by done.
  destruct (await _) as [l|e]; simpl.
  2:{ repeat split; try done. intros _ e' He. by apply elem_of_nil in He. }
  destruct (findOne _ (Chats (db w))) as [c|]; simpl.
  - repeat split; try done. intros Hnone e He. rewrite Hnone in He.
    by apply list_elem_of_singleton in He.
  - destruct (Company.findOne _ _) as [co|]; simpl.
    + repeat split; try done. intros Hnone e He. rewrite Hnone in He.
      by apply list_elem_of_singleton in He.
    + repeat split; try done. intros _ e He. by apply elem_of_nil in He.
Qed.

(** ** Deleting a history *)

Section DeleteMore.
Context {D : Type} `{!Document D}.

Lemma deleteFirst_keeps_others (q : Query) (coll : list D) (d : D) :
  d ∈ coll → matches q d = false → d ∈ deleteFirst q coll.
Proof.
  induction coll as [|d' rest IH]; simpl; intros Hin Hm.
  { by apply elem_of_nil in Hin. }
  apply elem_of_cons in Hin as [->|Hin].
  - rewrite Hm. apply list_elem_of_here.
  - destruct (matches q d'); [done|]. by apply list_elem_of_further, IH.
Qed.

Lemma filter_deleteFirst_at_most_one (q : Query) (coll : list D) :
  length (List.filter (matches q) coll) ≤ 1 →
  List.filter (matches q) (deleteFirst q coll) = [].
Proof.
  induction coll as [|d rest IH]; simpl; [done|].
  destruct (matches q d) eqn:E; simpl.
  - intros H. destruct (List.filter (matches q) rest); [done|simpl in H; lia].
  - rewrite E. apply IH.
Qed.

Lemma findOne_filter_nil (q : Query) (coll : list D) :
  List.filter (matches q) coll = [] → findOne q coll = None.
Proof. intros H. by rewrite filter_findOne, H. Qed.
End DeleteMore.

Lemma deleteChatHistory_effect (w : World) (l : LoggedIn) (r : ObjectId)
    (res : Response) :
  deleteChatHistoryServicve w (chat_request l r) res
  = Ret (set_db (set_chats (deleteFirst (pair_query (logged_id l) r)
                              (Chats (db w))) (db w)) w,
         status_json 201 (JMessage "Chat history cleared") res).
Proof. done. Qed.

Lemma getChatServices_null (w : World) (l : LoggedIn) (r : ObjectId)
    (res : Response) :
  findOne (pair_query (logged_id l) r) (Chats (db w)) = None →
  getChatServices w (chat_request l r) res
  = Ret {| statusCode := 201;
           sent := Some (JChat "Chat history fetched successfully" None) |}.
Proof.
  intros H. unfold getChatServices, chat_request; simpl. by rewrite H.
Qed.

Lemma deleteChatHistory_nothing (w : World) (l : LoggedIn) (r : ObjectId)
    (res : Response) :
  findOne (pair_query (logged_id l) r) (Chats (db w)) = None →
  deleteChatHistoryServicve w (chat_request l r) res
  = Ret (w, {| statusCode := 201;
               sent := Some (JMessage "Chat history cleared") |}).
Proof.
  intros H. rewrite deleteChatHistory_effect, (deleteFirst_None _ _ H).
  by destruct w as [[] ? ? ? ? ?].
Qed.

(** X11. After either participant has deleted the history, both of them fetch
[chat: null], and deleting once more changes nothing.  The deletion itself
always answers 201, also when there was nothing to delete. *)
Theorem delete_then_fetch (w : World) (ia ib : Identity) (res : Response) :
  one_chat_per_pair w →
  let a := User._id (i_user ia) in
  let b := User._id (i_user ib) in
  ∃ w',
    deleteChatHistoryServicve w (chat_request (IsIdentity ia) b) res
    = Ret (w', {| statusCode := 201;
                  sent := Some (JMessage "Chat history cleared") |})
    ∧ getChatServices w' (chat_request (IsIdentity ia) b) res
      = Ret {| statusCode := 201;
               sent := Some (JChat "Chat history fetched successfully" None) |}
    ∧ getChatServices w' (chat_request (IsIdentity ib) a) res
      = Ret {| statusCode := 201;
               sent := Some (JChat "Chat history fetched successfully" None) |}
    ∧ deleteChatHistoryServicve w' (chat_request (IsIdentity ia) b) res
      = Ret (w', {| statusCode := 201;
                    sent := Some (JMessage "Chat history cleared") |})
    ∧ deleteChatHistoryServicve w' (chat_request (IsIdentity ib) a) res
      = Ret (w', {| statusCode := 201;
                    sent := Some (JMessage "Chat history cleared") |}).
Proof.
  intros Hone a b. eexists. split; [apply deleteChatHistory_effect|].
  set (q := pair_query (Some a) b).
  set (w' := set_db _ w).
  assert (findOne q (Chats (db w')) = None) as Hgone.
  { apply findOne_filter_nil. simpl.
    apply filter_deleteFirst_at_most_one, Hone. }
  assert (findOne (pair_query (Some b) a) (Chats (db w')) = None) as Hgone'.
  { by rewrite <- (findOne_ext _ _ _ (pair_query_sym a b)). }
  repeat split.
  - by apply getChatServices_null.
  - by apply getChatServices_null.
  - by apply deleteChatHistory_nothing.
  - by apply deleteChatHistory_nothing.
Qed.

(** X12. Deleting a history removes at most one conversation, one that the pair
filter selects: every conversation of another pair is still there afterwards,
and nothing is added or rewritten. *)
Theorem delete_spares_other_pairs (w : World) (l : LoggedIn) (r : ObjectId)
    (res : Response) (c : Chat.doc) :
  matches (pair_query (logged_id l) r) c = false →
  ∃ w' res',
    deleteChatHistoryServicve w (chat_request l r) res = Ret (w', res')
    ∧ (c ∈ Chats (db w') ↔ c ∈ Chats (db w))
    ∧ (∀ c', c' ∈ Chats (db w') → c' ∈ Chats (db w))
    ∧ length (Chats (db w)) ≤ S (length (Chats (db w')))
    ∧ Users (db w') = Users (db w) ∧ Companies (db w') = Companies (db w)
    ∧ BlackList (db w') = BlackList (db w).
Proof.
  intros Hc. eexists _, _. split; [apply deleteChatHistory_effect|]. simpl.
  split; [|split; [|split; [|done]]].
  - split; [apply deleteFirst_subset|]. intros Hin.
    by apply deleteFirst_keeps_others.
  - intros c'. apply deleteFirst_subset.
  - induction (Chats (db w)) as [|d rest IH]; simpl; [lia|].
    destruct (matches _ d); simpl; lia.
Qed.

(** X13. The company check comes back with the deletion: a participant who holds
no HR seat in a live company could write into the conversation, but once the
history has been deleted the same message is turned away with the
authorization error and nothing is stored. *)
Theorem deleted_history_needs_hr_again (w : World) (socket : Socket)
    (data : MessageData) (i : Identity) (c : Chat.doc) (res : Response) :
  await (authenticationMiddleware w (accesstoken socket)) = Ret (IsIdentity i) →
  one_chat_per_pair w →
  let me := User._id (i_user i) in
  findOne (pair_query (Some me) (receiverId data)) (Chats (db w)) = Some c →
  (∀ co, co ∈ Companies (db w) → Company.isDeleted co = false →
         me ∉ Company.HRs co) →
  ∃ w' res',
    deleteChatHistoryServicve w
      (chat_request (IsIdentity i) (receiverId data)) res = Ret (w', res')
    ∧ h_emitted (sendMessage w socket data) = deliver w socket data c
    ∧ h_emitted (sendMessage w' socket data)
      = [ Emit (socket_id socket) "error" unauthorized ]
    ∧ db (h_world (sendMessage w' socket data)) = db w'.
Proof.
  intros Hauth Hone me Hc Hno. subst me.
  eexists _, _. split; [apply deleteChatHistory_effect|].
  set (w' := set_db _ w).
  assert (findOne (pair_query (Some (User._id (i_user i))) (receiverId data))
            (Chats (db w')) = None) as Hgone.
  { apply findOne_filter_nil. simpl.
    apply filter_deleteFirst_at_most_one, Hone. }
  assert (await (authenticationMiddleware w' (accesstoken socket))
          = Ret (IsIdentity i)) as Hauth'
    by (by rewrite (authentication_stable w w')).
  assert (Company.findOne (start_chat_query (Some (User._id (i_user i))))
            (Companies (db w')) = None) as Hrole.
  { destruct (Company.findOne _ _) as [co|] eqn:E; [exfalso|done].
    assert (is_Some (Company.findOne
                       (start_chat_query (Some (User._id (i_user i))))
                       (Companies (db w')))) as Hs by (by eexists).
    apply start_chat_found in Hs as (co' & Hco & Hlive & Hhr).
    by apply (Hno co' Hco Hlive). }
  split; [|split].
  - unfold sendMessage. rewrite Hauth. simpl. by rewrite Hc.
  - unfold sendMessage. rewrite Hauth'. cbn [logged_id].
    by rewrite Hgone, Hrole.
  - unfold sendMessage. rewrite Hauth'. cbn [logged_id].
    by rewrite Hgone, Hrole.
Qed.

(** ** Deferred deletion, whatever happens in between *)

Lemma run_timers_timers (ts : list Timer) (w : World) :
  timers (run_timers ts w).1 = timers w.
Proof.
  revert w. induction ts as [|t rest IH]; intros w; simpl; [done|].
  specialize (IH (h_world (fire t w))).
  destruct (run_timers rest (h_world (fire t w))) as [w1 o1]; simpl in *.
  rewrite IH. unfold fire. by destruct (logged_id _).
Qed.

Lemma step_keeps_pending (w : World) (e : Event) (tm : Timer) :
  match e with
  | ClockReaches t' => (t' < fires_at tm)%Z
  | _ => True
  end →
  tm ∈ timers w → tm ∈ timers (step w e).
Proof.
  intros He Hin.
  destruct e as [s|s|s d|s d|req|req|req|us cs|t]; simpl; try done.
  - unfold registerSocketId. by destruct (await _).
  - unfold removeSocket. by destruct (await _).
  - by destruct (sendMessage_frame w s d) as (_ & _ & _ & _ & _ & _ & ->).
  - unfold deleteChat. destruct (await _); [|done]. simpl.
    apply elem_of_app. by left.
  - destruct (next_called _); [|done].
    unfold deleteChatHistoryServicve. by destruct (loggedInUser _).
  - unfold signOutService.
    destruct (jwt_verify _ (headers_token req) _); [|done].
    by destruct (jwt_verify _ (headers_refreshtoken req) _).
  - unfold advance. rewrite run_timers_timers. simpl.
    apply list_elem_of_In, filter_In. split; [by apply list_elem_of_In|].
    unfold due. apply negb_true_iff, Z.leb_gt. lia.
Qed.

Lemma run_keeps_pending (evs : list Event) (w : World) (tm : Timer) :
  clock_stays_before (fires_at tm) evs →
  tm ∈ timers w → tm ∈ timers (run evs w).
Proof.
  intros Hevs. revert w. induction Hevs as [|e evs He _ IH]; intros w Hin;
    simpl; [done|].
  apply IH. by apply step_keeps_pending.
Qed.

Lemma run_timers_stays_gone (p : Chat.doc → bool) (ts : list Timer)
    (w : World) :
  List.filter p (Chats (db w)) = [] →
  List.filter p (Chats (db (run_timers ts w).1)) = [].
Proof.
  intros Hnone.
  destruct (List.filter p (Chats (db (run_timers ts w).1))) as [|c rest] eqn:E;
    [done|exfalso].
  assert (c ∈ c :: rest) as Hc by apply list_elem_of_here.
  rewrite <- E in Hc. apply list_elem_of_In, filter_In in Hc as [Hc Hp].
  apply list_elem_of_In, run_timers_chats_subset in Hc.
  assert (c ∈ List.filter p (Chats (db w))) as Hin.
  { apply list_elem_of_In, filter_In. split; [by apply list_elem_of_In|done]. }
  rewrite Hnone in Hin. by apply elem_of_nil in Hin.
Qed.

(** X14. A scheduled deletion cannot be called off.  Once ["deleteChat"] has armed
the timer, then whatever happens before the clock reaches its time (messages,
other deletions, sign-outs, further timers), the pair has no conversation
left as soon as the clock has reached 24 hours after the arming. *)
Theorem deferred_deletion_cannot_be_called_off (w : World) (socket : Socket)
    (data : MessageData) (i : Identity) (evs : list Event) (t : Z) :
  await (authenticationMiddleware w (accesstoken socket)) = Ret (IsIdentity i) →
  one_chat_per_pair w →
  clock_stays_before (now w + 86400000) evs →
  (now w + 86400000 ≤ t)%Z →
  let armed := h_world (deleteChat w socket data) in
  let later := run evs armed in
  findOne (pair_query (Some (User._id (i_user i))) (receiverId data))
    (Chats (db (advance t later).1)) = None.
Proof.
  intros Hauth Hone Hevs Ht armed later.
  set (q := pair_query _ _).
  set (tm := {| fires_at := (now w + day_ms)%Z; t_socket := socket_id socket;
                t_loggedInUser := IsIdentity i;
                t_receiverId := receiverId data |}).
  assert (tm ∈ timers later) as Hpending.
  { apply run_keeps_pending; [exact Hevs|].
    unfold armed, deleteChat. rewrite Hauth. simpl.
    apply elem_of_app. right. apply list_elem_of_here. }
  assert (one_chat_per_pair later) as Hone'.
  { apply run_one_chat_per_pair. unfold armed, deleteChat.
    by rewrite Hauth. }
  assert (tm ∈ List.filter (due t) (timers later)) as Hdue.
  { apply list_elem_of_In, filter_In. split; [by apply list_elem_of_In|].
    unfold due. apply Z.leb_le. simpl. unfold day_ms. lia. }
  apply list_elem_of_split in Hdue as (l1 & l2 & Hsplit).
  apply findOne_filter_nil. unfold advance. rewrite Hsplit.
  rewrite run_timers_app. cbn [fst snd].
  set (w0 := set_now _ _).
  assert (one_chat_per_pair (run_timers l1 w0).1) as Hmid.
  { apply run_timers_one_chat_per_pair. exact Hone'. }
  change (tm :: l2) with ([tm] ++ l2). rewrite run_timers_app. cbn [fst snd].
  apply run_timers_stays_gone.
  change (run_timers [tm] (run_timers l1 w0).1).1
    with (h_world (fire tm (run_timers l1 w0).1)).
  destruct (fire_frame tm (run_timers l1 w0).1) as [_ ->].
  apply filter_deleteFirst_at_most_one, Hmid.
Qed.

(** ** More on the middleware *)

Lemma findById_Some (i : ObjectId) (users : list User.doc) (u : User.doc) :
  User.findById i users = Some u →
  User._id u = i ∧ User.isDeleted u = false ∧ User.password u = None
  ∧ ∃ u0, u0 ∈ users ∧ u = User.select_no_password u0.
Proof.
  unfold User.findById.
  change {| q_fields := [("_id", VId i)]; q_or := None |} with (user_query i).
  destruct (findOne (User.pre_find (user_query i)) users) as [u0|] eqn:E;
    [|done].
  intros [= <-].
  pose proof (user_find_hook _ _ _ E) as Hlive.
  pose proof (user_find_hook_id _ _ _ E) as Hid.
  apply findOne_Some_matches in E as [_ Hin].
  repeat split; try done. by exists u0.
Qed.

(** X15. The identity the middleware lets through is the stored account whose
[_id] is the token's [_id] claim: it is not soft-deleted, it comes without
the password hash, and it carries the token's id and expiry.  The request
goes on with the response untouched. *)
Theorem accepted_identity_is_the_token_subject (w : World) (req : Request)
    (res : Response) (i : Identity) :
  validateUserToken w (headers_token req) (Some res) = Ret (IsIdentity i) →
  let run := run_middleware w req res in
  next_called run = true ∧ mw_res run = res
  ∧ loggedInUser (mw_req run) = Some (IsIdentity i)
  ∧ ∃ d, jwt_verify (now w) (headers_token req) (JWT_SECRET_LOGIN (env w))
         = Ret d
         ∧ User._id (i_user i) = p_id d
         ∧ User.isDeleted (i_user i) = false
         ∧ User.password (i_user i) = None
         ∧ i_token i = {| ti_tokenId := jti d; ti_expierdAt := exp d |}
         ∧ (now w `div` 1000 < exp d)%Z
         ∧ ∃ u, u ∈ Users (db w) ∧ i_user i = User.select_no_password u.
Proof.
  intros Hv run. subst run. unfold run_middleware. rewrite Hv. simpl.
  repeat split.
  apply validate_identity_inv in Hv as (d & Hd & _ & Hu & Ht).
  exists d. apply findById_Some in Hu as (Hid & Hlive & Hpw & Hin).
  repeat split; try done.
  destruct (headers_token req) as [[s|p k]|]; simpl in Hd; try done.
  - by case_bool_decide.
  - case_bool_decide; [|done].
    destruct (exp p <=? now w `div` 1000)%Z eqn:E; [done|].
    injection Hd as <-. by apply Z.leb_gt.
Qed.

(** X16. The middleware keeps a request from its handler in one case only: when
[jwt.verify] throws.  It then answers 500 with the error and leaves
[req.loggedInUser] as it was; in every other case [next] is called. *)
Theorem middleware_stops_only_on_verify_error (w : World) (req : Request)
    (res : Response) :
  let run := run_middleware w req res in
  (next_called run = false
   ↔ ∃ e, jwt_verify (now w) (headers_token req) (JWT_SECRET_LOGIN (env w))
          = Throw e)
  ∧ ∀ e, jwt_verify (now w) (headers_token req) (JWT_SECRET_LOGIN (env w))
         = Throw e →
         mw_res run
         = {| statusCode := 500;
              sent := Some (JError "Somthing wrong from authMiddleware" e) |}
         ∧ mw_req run = req.
Proof.
  intros run. subst run. unfold run_middleware, validateUserToken.
  destruct (jwt_verify _ _ _) as [d|e].
  - split; [|done].
    destruct (findOne (tokenId_query _) _); simpl; [split; [done|by intros [? ?]]|].
    destruct (User.findById _ _); simpl; split; try done; by intros [? ?].
  - simpl. split; [split; [by eexists|done]|]. by intros ? [= <-].
Qed.

(** ** Token utilities and refresh *)

(** X18. The refresh service never reads the revocation list.  After a sign-out
has put the id of the refresh token on the list, the service still exchanges
that refresh token for a new access token, and the new token passes the
validator as the same account. *)
Theorem revoked_refresh_token_still_refreshes (w w1 : World) (req : Request)
    (res res1 res2 : Response) (evs : list Event) (refresh : Token)
    (d : JwtPayload) (ttl : Z) (nano : string) (u : User.doc) :
  signOutService w req res = Ret (w1, res1) →
  headers_refreshtoken req = Some refresh →
  let w2 := run evs w1 in
  verifyToken w2 (Some refresh) (Some (JWT_SECRET_REFRESH (env w2))) = Ret d →
  (0 < ttl)%Z →
  findOne (tokenId_query nano) (BlackList (db w2)) = None →
  User.findById (p_id d) (Users (db w2)) = Some u →
  (∃ row, row ∈ BlackList (db w2) ∧ BlackListTokens.tokenId row = jti d)
  ∧ ∃ access,
      refreshTokenServices w2 req res2 ttl nano
      = Ret (RefreshIssued 201 "Token Refreshed Success" access)
      ∧ ∀ r, validateUserToken w2 (Some access) r
             = Ret (IsIdentity
                      {| i_user := u;
                         i_token :=
                           {| ti_tokenId := nano;
                              ti_expierdAt := (now w2 `div` 1000 + ttl)%Z |} |}).
Proof.
  intros Hout Href w2 Hv Httl Hnano Hu. split.
  - apply signOut_inserts in Hout as (da & dr & _ & Hdr & Hbl).
    rewrite Href in Hdr. apply jwt_verify_jti in Hdr.
    unfold verifyToken in Hv. apply jwt_verify_jti in Hv.
    rewrite Hdr in Hv. injection Hv as Hjti.
    exists {| BlackListTokens.tokenId := jti dr;
              BlackListTokens.expierdAt := exp dr |}.
    split; [|done]. apply run_blacklist. rewrite Hbl.
    apply elem_of_app. right. apply list_elem_of_further, list_elem_of_here.
  - eexists. split.
    + unfold refreshTokenServices. rewrite Href.
      unfold verifyToken in Hv.
      rewrite (jwt_verify_truthy _ _ _ _ Hv).
      unfold verifyToken. by rewrite Hv.
    + intros r. unfold validateUserToken, generateToken. simpl.
      rewrite bool_decide_eq_true_2 by done.
      replace (now w2 `div` 1000 + ttl <=? now w2 `div` 1000)%Z with false
        by (symmetry; apply Z.leb_gt; lia).
      simpl. by rewrite Hnano, Hu.
Qed.

(** Without a refresh token in the headers (absent or empty) the refresh
service answers 401 and verifies nothing. *)
Lemma refresh_without_token (w : World) (req : Request) (res : Response)
    (ttl : Z) (nano : string) :
  headers_refreshtoken req = None
  ∨ headers_refreshtoken req = Some (NotJwt "") →
  refreshTokenServices w req res ttl nano
  = Ret (RefreshRefused
           {| statusCode := 401;
              sent := Some (JMessage "No refresh token provided") |}).
Proof. unfold refreshTokenServices. by intros [-> | ->]. Qed.

(** X19. A sign-out that cannot verify one of its two tokens revokes nothing.
With a good access token but a refresh token that is absent, malformed,
expired or signed with another key, the route answers 500 with the message
of the verification error, and the access token authenticates as before. *)
Theorem failed_signout_revokes_nothing (w : World) (req : Request)
    (d : JwtPayload) (e : Exn) :
  jwt_verify (now w) (headers_token req) (JWT_SECRET_LOGIN (env w)) = Ret d →
  jwt_verify (now w) (headers_refreshtoken req) (JWT_SECRET_REFRESH (env w))
  = Throw e →
  signout_route w req
  = (w, GlobalError 500 "error in global middleware handler" (exn_message e))
  ∧ ∀ r, validateUserToken (signout_route w req).1 (headers_token req) r
         = validateUserToken w (headers_token req) r.
Proof.
  intros Ha Hr.
  assert (signout_route w req
          = (w, GlobalError 500 "error in global middleware handler"
                  (exn_message e))) as Hroute.
  { unfold signout_route, signOutService. by rewrite Ha, Hr. }
  split; [done|]. by rewrite Hroute.
Qed.

(** ** The find hooks *)

(** X20. A company lookup whose filter has no [includeDeleted] key never answers
with a soft-deleted company, whatever the filter itself asks of [isDeleted]:
the hook puts its own value under that key.  The answer is a stored company
that satisfies every other key of the filter, and its [$or] when it has
one. *)
Theorem company_lookup_hides_soft_deleted (q : Query)
    (companies : list Company.doc) (c : Company.doc) :
  clause_get "includeDeleted" (q_fields q) = None →
  Company.findOne q companies = Some c →
  Company.isDeleted c = false
  ∧ c ∈ companies
  ∧ (∀ p v, (p, v) ∈ q_fields q → p ≠ "isDeleted" →
            field_matches (get_path c p) v = true)
  ∧ ∀ cs, q_or q = Some cs → ∃ cl, cl ∈ cs ∧ clause_matches c cl = true.
Proof.
  intros Hkey. unfold Company.findOne, Company.pre_find. rewrite Hkey.
  intros [Hm Hin]%findOne_Some_matches.
  unfold matches, where_ in Hm; simpl in Hm.
  apply andb_true_iff in Hm as [Hm Hor].
  rewrite clause_set_matches in Hm. apply andb_true_iff in Hm as [Hdel Hm].
  split; [|split; [done|split]].
  - unfold get_path, Company.document in Hdel; simpl in Hdel.
    case_bool_decide; [congruence|done].
  - intros p v Hpv Hp. rewrite forallb_forall in Hm.
    specialize (Hm (p, v)). simpl in Hm.
    rewrite bool_decide_eq_false_2 in Hm by done.
    apply Hm. by apply list_elem_of_In.
  - intros cs Hcs. rewrite Hcs in Hor.
    apply existsb_exists in Hor as (cl & Hcl & Hmatch).
    exists cl. split; [by apply list_elem_of_In|done].
Qed.

(** X21. In a fetched history a reference is resolved to [null] exactly when no
live account has that id: what a soft-deleted account wrote is shown without
its sender. *)
Theorem populate_hides_deleted_accounts (users : list User.doc)
    (i : ObjectId) :
  populate_user users (Some i) = None
  ↔ ∀ u, u ∈ users → User._id u = i → User.isDeleted u = true.
Proof.
  unfold populate_user. split.
  - intros Hnone u Hu Hid.
    destruct (findOne (User.pre_find (user_query i)) users) eqn:E; [done|].
    rewrite findOne_None_iff in E. specialize (E u Hu).
    unfold matches, User.pre_find, where_, user_query, clause_matches,
      get_path, User.document in E; simpl in E.
    rewrite !andb_true_r in E.
    rewrite bool_decide_eq_true_2 in E by congruence. simpl in E.
    destruct (User.isDeleted u); [done|]. by rewrite bool_decide_eq_true_2 in E.
  - intros Hdel.
    destruct (findOne (User.pre_find (user_query i)) users) as [u|] eqn:E;
      [exfalso|done].
    pose proof (user_find_hook _ _ _ E) as Hlive.
    pose proof (user_find_hook_id _ _ _ E) as Hid.
    apply findOne_Some_matches in E as [_ Hin].
    rewrite (Hdel u Hin Hid) in Hlive. done.
Qed.

(** ** The upload filter *)

(** X22. [fileFilter] never turns a file away: for a listed MIME type it hands
[true] to its callback, and for any other a string that is not empty, which
is truthy as well. *)
Theorem fileFilter_never_rejects (allwedExtintion : list string)
    (mimetype originalname : string) (date_now rounded_random : Z) :
  truthy (fileFilter allwedExtintion mimetype originalname date_now
            rounded_random) = true.
Proof.
  unfold fileFilter. case_bool_decide; simpl; [done|].
  apply negb_true_iff, bool_decide_eq_false_2.
  by destruct (pretty date_now).
Qed.

(** The CV upload lists ["pdf"], which is no MIME type: a PDF and an
executable alike take the second branch, and both are let through. *)
Example cv_upload_filter :
  fileFilter ["pdf"] "application/pdf" "cv.pdf" 1700000000000 42
  = VStr "1700000000000-42_cv.pdf"
  ∧ fileFilter ["pdf"] "application/x-msdownload" "cv.exe" 1700000000000 42
    = VStr "1700000000000-42_cv.exe".
Proof. split; reflexivity. Qed.

(** ** The conversation invariant *)

(** X23. Handled one after the other, the events never leave a pair with two
conversations: starting from a database that has at most one conversation
per unordered pair (an empty one, for instance), every run of events ends in
one that has. *)
Theorem one_conversation_per_pair_is_kept (w : World) (evs : list Event) :
  one_chat_per_pair w →
  one_chat_per_pair (run evs w)
  ∧ ∀ me r c c',
      c ∈ Chats (db (run evs w)) → c' ∈ Chats (db (run evs w)) →
      matches (pair_query me r) c = true →
      matches (pair_query me r) c' = true →
      List.filter (matches (pair_query me r)) (Chats (db (run evs w))) = [c]
      ∧ c' = c.
Proof.
  intros Hone. pose proof (run_one_chat_per_pair evs w Hone) as Hrun.
  split; [done|]. intros me r c c' Hc Hc' Hm Hm'.
  specialize (Hrun me r).
  assert (∀ x, x ∈ Chats (db (run evs w)) → matches (pair_query me r) x = true →
               x ∈ List.filter (matches (pair_query me r))
                     (Chats (db (run evs w)))) as Hin.
  { intros x Hx Hmx. apply list_elem_of_In, filter_In.
    split; [by apply list_elem_of_In|done]. }
  pose proof (Hin c Hc Hm) as H1. pose proof (Hin c' Hc' Hm') as H2.
  destruct (List.filter _ _) as [|x [|y rest]]; simpl in Hrun.
  - by apply elem_of_nil in H1.
  - apply list_elem_of_singleton in H1 as ->.
    apply list_elem_of_singleton in H2 as ->. done.
  - lia.
Qed.

(** ** The further properties, checked on the scenario *)

Lemma ex_chat_world_one_chat : one_chat_per_pair ex_chat_world.
Proof.
  apply sendMessage_one_chat_per_pair.
  by apply no_chats_one_chat_per_pair.
Qed.

Lemma register_then_resolve_witness :
  ∃ w', registerSocketId ex_world (ex_socket "sock-1" 1 "jti-1")
        = Ret (w', "socket connected successfully")
        ∧ socketConnection w' !! Some 1%N = Some "sock-1"
        ∧ socketConnection w' !! Some 2%N = Some "sock-2"
        ∧ db w' = db ex_world.
Proof.
  destruct (register_then_resolve ex_world (ex_socket "sock-1" 1 "jti-1")
              (ex_identity 1 "jti-1")) as (w' & Hreg & Hmine & Hrest & Hdb & _);
    [reflexivity|].
  exists w'. split; [exact Hreg|]. split; [exact Hmine|]. split; [|exact Hdb].
  rewrite Hrest; [reflexivity|discriminate].
Defined.

Lemma unregister_is_idempotent_witness :
  socketConnection ex_world !! Some 2%N = Some "sock-2"
  ∧ ∃ w', removeSocket ex_world (ex_socket "sock-2" 2 "jti-2")
          = Ret (w', "disConnected")
          ∧ socketConnection w' !! Some 2%N = None
          ∧ removeSocket w' (ex_socket "sock-2" 2 "jti-2")
            = Ret (w', "disConnected").
Proof.
  split; [reflexivity|].
  destruct (unregister_is_idempotent ex_world (ex_socket "sock-2" 2 "jti-2")
              (ex_identity 2 "jti-2")) as (w' & Hrem & Hgone & _ & _ & Hagain);
    [reflexivity|].
  exists w'. split; [exact Hrem|]. split; [exact Hgone|exact Hagain].
Defined.

Lemma stale_disconnect_unbinds_witness :
  let old := ex_socket "sock-1" 1 "jti-1" in
  let new := ex_socket "sock-1b" 1 "jti-1" in
  let w1 := set_socketConnection
              (<[Some 1%N := "sock-1"]> (socketConnection ex_world)) ex_world in
  let w2 := set_socketConnection
              (<[Some 1%N := "sock-1b"]> (socketConnection w1)) w1 in
  let w3 := set_socketConnection (delete (Some 1%N) (socketConnection w2)) w2 in
  registerSocketId w1 new = Ret (w2, "socket connected successfully")
  ∧ removeSocket w2 old = Ret (w3, "disConnected")
  ∧ socketConnection w2 !! Some 1%N = Some "sock-1b"
  ∧ socketConnection w3 !! Some 1%N = None.
Proof.
  intros old new w1 w2 w3.
  assert (registerSocketId w1 new = Ret (w2, "socket connected successfully"))
    as H2 by reflexivity.
  assert (removeSocket w2 old = Ret (w3, "disConnected")) as H3 by reflexivity.
  split; [exact H2|]. split; [exact H3|].
  apply (stale_disconnect_unbinds ex_world w1 w2 w3 old new
           (ex_identity 1 "jti-1") "socket connected successfully"
           "socket connected successfully" "disConnected");
    [reflexivity | reflexivity | reflexivity | exact H2 | exact H3].
Defined.

Lemma expired_socket_stays_bound_witness :
  let socket := ex_socket "sock-1" 1 "jti-1" in
  ∃ w1 m, registerSocketId ex_world socket = Ret (w1, m)
          ∧ removeSocket (advance 2000000 w1).1 socket = Throw TokenExpiredError
          ∧ socketConnection (advance 2000000 w1).1 !! Some 1%N = Some "sock-1".
Proof.
  intros socket.
  destruct (expired_socket_stays_bound ex_world socket (ex_identity 1 "jti-1")
              {| p_id := 1; p_name := "Ada Byron"; p_email := "ada@example.org";
                 jti := "jti-1"; exp := 2000 |} "login-secret" 2000000)
    as (w1 & m & Hreg & Hthrow & _ & Hbound);
    [reflexivity | reflexivity | reflexivity |].
  exists w1, m. split; [exact Hreg|]. split; [exact Hthrow|exact Hbound].
Defined.

Lemma signout_leaves_binding_behind_witness :
  let socket := ex_socket "sock-1" 1 "jti-1" in
  let later := run [ ClockReaches 1500000 ] ex_signed_out in
  socketConnection ex_signed_out = socketConnection ex_world
  ∧ (∃ e, removeSocket later socket = Throw e)
  ∧ socketConnection (step later (Disconnect socket)) = socketConnection later.
Proof.
  intros socket later.
  destruct (signout_leaves_binding_behind ex_world ex_signed_out
              ex_signout_request fresh_response
              (status_json 201 (JMessage "Logged out Successfully")
                 fresh_response)
              [ ClockReaches 1500000 ] socket)
    as (Hsame & Hthrow & Hstay); [reflexivity | reflexivity |].
  split; [exact Hsame|]. split; [exact Hthrow|exact Hstay].
Defined.

Lemma send_after_signout_is_refused_witness :
  let socket := ex_socket "sock-1" 1 "jti-1" in
  let h := sendMessage ex_signed_out socket (ex_hello 2) in
  (∃ e, h_thrown h = Some e) ∧ h_emitted h = [] ∧ h_world h = ex_signed_out.
Proof.
  intros socket h.
  apply (send_after_signout_is_refused ex_world ex_signed_out
           ex_signout_request fresh_response
           (status_json 201 (JMessage "Logged out Successfully")
              fresh_response) [] socket (ex_hello 2));
    reflexivity.
Defined.

Lemma append_needs_no_role_witness :
  let socket := ex_socket "sock-2" 2 "jti-2" in
  let h := sendMessage ex_chat_world socket (ex_hello 1) in
  h_emitted (sendMessage ex_world socket (ex_hello 1))
    = [ Emit "sock-2" "error" unauthorized ]
  ∧ h_emitted h = deliver ex_chat_world socket (ex_hello 1) ex_chat
  ∧ h_thrown h = None.
Proof.
  intros socket h. split; [reflexivity|].
  destruct (append_needs_no_role ex_chat_world socket (ex_hello 1)
              (ex_identity 2 "jti-2") ex_chat)
    as (Hout & Hthrown & _);
    [reflexivity | exact ex_chat_world_fresh | reflexivity |].
  split; [exact Hout | exact Hthrown].
Defined.

Lemma send_to_offline_receiver_witness :
  let socket := ex_socket "sock-1" 1 "jti-1" in
  let h := sendMessage ex_world socket (ex_hello 2) in
  let h' := sendMessage (set_socketConnection ∅ ex_world) socket (ex_hello 2) in
  db (h_world h') = db (h_world h)
  ∧ ∀ e, e ∈ tail (h_emitted h') →
         e = EmitTo "sock-1" None "receiveMessage" (ReceivePayload "Hello").
Proof.
  intros socket h h'.
  destruct (send_to_offline_receiver ex_world ∅ socket (ex_hello 2))
    as (Hdb & _ & _ & Hroom).
  split; [exact Hdb|]. apply Hroom. reflexivity.
Defined.

Lemma delete_then_fetch_witness :
  ∃ w',
    deleteChatHistoryServicve ex_chat_world
      (chat_request (IsIdentity (ex_identity 2 "jti-2")) 1) fresh_response
    = Ret (w', {| statusCode := 201;
                  sent := Some (JMessage "Chat history cleared") |})
    ∧ getChatServices w'
        (chat_request (IsIdentity (ex_identity 1 "jti-1")) 2) fresh_response
      = Ret {| statusCode := 201;
               sent := Some (JChat "Chat history fetched successfully" None) |}.
Proof.
  destruct (delete_then_fetch ex_chat_world (ex_identity 2 "jti-2")
              (ex_identity 1 "jti-1") fresh_response ex_chat_world_one_chat)
    as (w' & Hdel & _ & Hfetch & _).
  exists w'. split; [exact Hdel | exact Hfetch].
Defined.

Lemma delete_spares_other_pairs_witness :
  ∃ w' res',
    deleteChatHistoryServicve ex_chat_world
      (chat_request (IsIdentity (ex_identity 3 "jti-3")) 2) fresh_response
    = Ret (w', res')
    ∧ ex_chat ∈ Chats (db w').
Proof.
  destruct (delete_spares_other_pairs ex_chat_world
              (IsIdentity (ex_identity 3 "jti-3")) 2 fresh_response ex_chat)
    as (w' & res' & Hdel & Hkept & _); [reflexivity|].
  exists w', res'. split; [exact Hdel|].
  apply Hkept. apply list_elem_of_here.
Defined.

Lemma deleted_history_needs_hr_again_witness :
  let socket := ex_socket "sock-2" 2 "jti-2" in
  ∃ w' res',
    deleteChatHistoryServicve ex_chat_world
      (chat_request (IsIdentity (ex_identity 2 "jti-2")) 1) fresh_response
    = Ret (w', res')
    ∧ h_emitted (sendMessage ex_chat_world socket (ex_hello 1))
      = deliver ex_chat_world socket (ex_hello 1) ex_chat
    ∧ h_emitted (sendMessage w' socket (ex_hello 1))
      = [ Emit "sock-2" "error" unauthorized ].
Proof.
  intros socket.
  destruct (deleted_history_needs_hr_again ex_chat_world socket (ex_hello 1)
              (ex_identity 2 "jti-2") ex_chat fresh_response)
    as (w' & res' & Hdel & Hbefore & Hafter & _).
  - reflexivity.
  - exact ex_chat_world_one_chat.
  - reflexivity.
  - intros co Hco Hlive Hhr.
    apply elem_of_cons in Hco as [->|Hco].
    + apply list_elem_of_singleton in Hhr. discriminate Hhr.
    + apply list_elem_of_singleton in Hco as ->. discriminate Hlive.
  - exists w', res'. split; [exact Hdel|]. split; [exact Hbefore|exact Hafter].
Defined.

Lemma deferred_deletion_cannot_be_called_off_witness :
  let armed := h_world (deleteChat ex_chat_world (ex_socket "sock-1" 1 "jti-1")
                          (ex_hello 2)) in
  let later := run [ SendMessage (ex_socket "sock-2" 2 "jti-2") (ex_hello 1);
                     ClockReaches 4600000 ] armed in
  length (Chat.messages <$> Chats (db later)) = 1
  ∧ findOne (pair_query (Some 1%N) 2) (Chats (db (advance 87400000 later).1))
    = None.
Proof.
  intros armed later. split; [reflexivity|].
  apply (deferred_deletion_cannot_be_called_off ex_chat_world
           (ex_socket "sock-1" 1 "jti-1") (ex_hello 2) (ex_identity 1 "jti-1")
           [ SendMessage (ex_socket "sock-2" 2 "jti-2") (ex_hello 1);
             ClockReaches 4600000 ] 87400000).
  - reflexivity.
  - exact ex_chat_world_one_chat.
  - repeat constructor.
  - vm_compute. discriminate.
Defined.

Lemma accepted_identity_is_the_token_subject_witness :
  let run := run_middleware ex_world ex_signout_request fresh_response in
  next_called run = true ∧ mw_res run = fresh_response
  ∧ loggedInUser (mw_req run) = Some (IsIdentity (ex_identity 1 "jti-1")).
Proof.
  destruct (accepted_identity_is_the_token_subject ex_world ex_signout_request
              fresh_response (ex_identity 1 "jti-1"))
    as (Hnext & Hres & Hbound & _); [reflexivity|].
  split; [exact Hnext|]. split; [exact Hres|exact Hbound].
Defined.

Lemma middleware_stops_only_on_verify_error_witness :
  let req := {| headers_token := Some (NotJwt "not-a-token");
                headers_refreshtoken := None; params_receiverId := 2;
                loggedInUser := None |} in
  let run := run_middleware ex_world req fresh_response in
  next_called run = false
  ∧ mw_res run
    = {| statusCode := 500;
         sent := Some (JError "Somthing wrong from authMiddleware"
                         (JsonWebTokenError "jwt malformed")) |}.
Proof.
  intros req run.
  destruct (middleware_stops_only_on_verify_error ex_world req fresh_response)
    as [Hstop Hanswer].
  split.
  - apply Hstop. exists (JsonWebTokenError "jwt malformed"). reflexivity.
  - apply (Hanswer (JsonWebTokenError "jwt malformed")). reflexivity.
Defined.

Lemma revoked_refresh_token_still_refreshes_witness :
  ∃ access,
    refreshTokenServices ex_signed_out ex_signout_request fresh_response
      3600 "k3x9q"
    = Ret (RefreshIssued 201 "Token Refreshed Success" access)
    ∧ validateUserToken ex_signed_out (Some access) None
      = Ret (IsIdentity
               {| i_user := User.select_no_password (ex_user 1 false);
                  i_token := {| ti_tokenId := "k3x9q";
                                ti_expierdAt := 4600 |} |})
    ∧ ∃ e, validateUserToken ex_signed_out (Some (ex_access 1 "jti-1")) None
           = Throw e.
Proof.
  destruct (revoked_refresh_token_still_refreshes ex_world ex_signed_out
              ex_signout_request fresh_response
              (status_json 201 (JMessage "Logged out Successfully")
                 fresh_response)
              fresh_response [] (ex_refresh 1 "jti-1r")
              {| p_id := 1; p_name := "Ada Byron"; p_email := "ada@example.org";
                 jti := "jti-1r"; exp := 9000 |}
              3600 "k3x9q" (User.select_no_password (ex_user 1 false)))
    as (_ & access & Hissued & Hvalid);
    [reflexivity | reflexivity | reflexivity | reflexivity | reflexivity
    | reflexivity |].
  exists access. split; [exact Hissued|]. split; [apply Hvalid|].
  eexists. reflexivity.
Defined.

Lemma failed_signout_revokes_nothing_witness :
  let req := {| headers_token := Some (ex_access 1 "jti-1");
                headers_refreshtoken := None; params_receiverId := 2;
                loggedInUser := None |} in
  signout_route ex_world req
  = (ex_world,
     GlobalError 500 "error in global middleware handler" "jwt must be provided").
Proof.
  intros req.
  destruct (failed_signout_revokes_nothing ex_world req
              {| p_id := 1; p_name := "Ada Byron"; p_email := "ada@example.org";
                 jti := "jti-1"; exp := 2000 |}
              (JsonWebTokenError "jwt must be provided")) as [Hroute _];
    [reflexivity | reflexivity |].
  exact Hroute.
Defined.

Lemma company_lookup_hides_soft_deleted_witness :
  let q := {| q_fields := [("HRs", VId 1); ("isDeleted", VBool true)];
              q_or := None |} in
  Company.findOne q (Companies (db ex_world)) = Some ex_company
  ∧ Company.isDeleted ex_company = false
  ∧ field_matches (get_path ex_company "HRs") (VId 1) = true.
Proof.
  intros q.
  assert (Company.findOne q (Companies (db ex_world)) = Some ex_company)
    as H by reflexivity.
  split; [exact H|].
  destruct (company_lookup_hides_soft_deleted q (Companies (db ex_world))
              ex_company) as (Hlive & _ & Hkeys & _);
    [reflexivity | exact H |].
  split; [exact Hlive|].
  apply Hkeys; [|discriminate]. apply elem_of_cons. by left.
Defined.

Lemma populate_hides_deleted_accounts_witness :
  populate_user (Users (db ex_world)) (Some 5%N) = None.
Proof.
  apply (populate_hides_deleted_accounts (Users (db ex_world)) 5).
  intros u Hu Hid.
  repeat (apply elem_of_cons in Hu as [->|Hu]; [try discriminate Hid|]).
  - reflexivity.
  - by apply elem_of_nil in Hu.
Defined.

Lemma one_conversation_per_pair_is_kept_witness :
  one_chat_per_pair
    (run [ SendMessage (ex_socket "sock-1" 1 "jti-1") (ex_hello 2);
           SendMessage (ex_socket "sock-1" 1 "jti-1") (ex_hello 2);
           SendMessage (ex_socket "sock-2" 2 "jti-2") (ex_hello 1) ] ex_world).
Proof.
  apply (one_conversation_per_pair_is_kept ex_world).
  intros me r. simpl. lia.
Defined.
